(** * Star-topology coordination protocol of the FLAME python SDK

    A shallow embedding of [flame/schemas/star/star_model.py] (class
    [StarModel]) and the properties of its round coordinators, readiness
    handshake and data fetch adapter.

    The Python methods talk to collaborators that live outside the file:
    the [FlameCoreSDK] facade, the user's strategy objects, the storage
    service and the HTTP data client.  They are embedded as a scripted
    environment [Env]: every collaborator call reads its reply from the
    environment at the current logical clock, records an [Event] and
    advances the clock.  Python exceptions and non-terminating loops are
    explicit outcomes of a small state-and-trace monad [M]; a loop takes
    a bound [fuel] on the number of its iterations and ends in
    [OutOfFuel] when it would run a further one. *)

From Stdlib Require Import ZArith Lia.
From Stdlib Require Import Strings.Byte.
From stdpp Require Import base strings list gmap.

(** ** Python values used by the coordinator *)

Definition NodeID := string.

(** Python's insertion-ordered [dict], where the order of [.values()]
    matters. *)
Definition dict (K V : Type) := list (K * V).

Definition dict_values {K V} (d : dict K V) : list V := map snd d.

Fixpoint dict_get {V} (d : dict string V) (k : string) : option V :=
  match d with
  | [] => None
  | (k', v) :: d' => if String.eqb k' k then Some v else dict_get d' k
  end.

Inductive Category := ready_check | intermediate_results | aggregated_results.

Definition Body := dict string string.

Record Message := mkMessage {
  msg_sender : NodeID;
  msg_category : Category;
  body : Body
}.

(** The value of [await_and_return_responses]: per node either [None]
    or the list of its messages, oldest first. *)
Definition ResponseDict := dict NodeID (option (list Message)).

Inductive exn :=
| BrokenPipeError (msg : string)
| KeyError (key : string)
| IndexError
| TypeError
| HTTPStatusError (status : Z)
| JSONDecodeError
| ConnectError (msg : string)
| CollaboratorError (msg : string).

(** [class _ERROR_MESSAGES(Enum)] *)
Definition IS_ANALYZER : string :=
  "Node is configured as analyzer. Unable to execute command associated to aggregator.".
Definition IS_AGGREGATOR : string :=
  "Node is configured as aggregator. Unable to execute command associated to analyzer.".
Definition IS_INCORRECT_CLASS : string :=
  "The object/class given is incorrect, e.g. is not correctly implementing/inheriting the intended template class.".

(** The argument of an entrypoint, typed [Type[Aggregator] | Any] in the
    source: an instance, a subclass still to be instantiated, a class
    outside the hierarchy, or an object that is no class at all (for
    which [issubclass] raises [TypeError], as the source's comment
    recalls). *)
Inductive StrategyArg (Obj : Type) :=
| AnInstance (o : Obj)
| ASubclass (init : Obj)
| AnotherClass
| NotAClass.
Arguments AnInstance {Obj} o.
Arguments ASubclass {Obj} init.
Arguments AnotherClass {Obj}.
Arguments NotAClass {Obj}.

Inductive Query :=
| QStr (q : string)
| QList (qs : list string).

Inductive outcome (A : Type) : Type :=
| Ret (a : A)
| Raise (e : exn)
| OutOfFuel.
Arguments Ret {A} a.
Arguments Raise {A} e.
Arguments OutOfFuel {A}.

Section Star.

(** [Res] is the type of the objects the strategies return, [py_str] is
    Python's [str] on them, [JSON] the type of parsed response bodies. *)
Context {Res JSON : Type}.
Variable py_str : Res -> string.

(** An HTTP response of the data client: its status code and what
    [response.json()] yields ([None] when parsing raises). *)
Record Response := mkResponse {
  status_code : Z;
  json_body : option JSON
}.

(** The value of [_get_data]: a parsed body, a mapping from query to
    parsed body, or the sentinel [False]. *)
Inductive FetchResult :=
| FBody (j : JSON)
| FMap (m : gmap string JSON)
| FFalse.

Inductive StrategyKind := KAggregator | KAnalyzer.

(** One record per collaborator call, with the reply it received. *)
Inductive Event :=
| EvInstantiate (k : StrategyKind)
| EvSleep (secs : nat)
| EvSendMessage (receivers : list NodeID) (cat : Category) (msg : Body)
    (timeout : option nat) (reply : list NodeID * list NodeID)
| EvAwaitResponses (node_ids : list NodeID) (cat : Category)
    (timeout : option nat) (reply : ResponseDict)
| EvAggregate (node_results : list string) (simple_analysis : bool)
    (reply : Res * bool)
| EvAnalyze (data : FetchResult) (aggregator_results : option string)
    (simple_analysis : bool) (reply : Res * bool)
| EvSubmitFinalResult (payload : list byte) (reply : exn + string)
| EvAnalysisFinished
| EvNodeFinished (k : StrategyKind)
| EvHttpGet (path : string) (headers : list (string * string))
    (reply : exn + Response).

(** What [print] wrote, kept structured. *)
Inductive Printed :=
| PNodeResponses (d : ResponseDict)
| PNodeResults (l : list string)
| PAggregated (r : Res)
| PSubmitting
| PSubmitSuccess (response : string)
| PDataExtracted (d : FetchResult)
| PAwaitAggregator
| PAwaitAggregatorSuccess
| PAwaitAnalyzers (num_responses total : nat)
| PAwaitAnalyzersSuccess
| PFailedQuery (q : string).

(** The strategy objects ([Aggregator] and [Analyzer] instances); their
    classes are user code, so their methods are scripted on the clock. *)
Record AggregatorObj := mkAggregatorObj {
  partner_node_ids : list NodeID;
  aggregate_method : nat -> list string -> bool -> Res * bool
}.

Record AnalyzerObj := mkAnalyzerObj {
  analyze_method : nat -> FetchResult -> option string -> bool -> Res * bool
}.

(** The scripted collaborators behind [self.flame]. *)
Record Env := mkEnv {
  role : string;
  aggregator_id : NodeID;
  participant_ids : list NodeID;
  project_id : string;
  ext_finished : nat -> bool;
  send_reply : nat -> list NodeID -> Category -> Body -> option nat ->
               list NodeID * list NodeID;
  await_reply : nat -> list NodeID -> Category -> option nat -> ResponseDict;
  submit_reply : nat -> list byte -> exn + string;
  http_reply : nat -> string -> exn + Response
}.

(** The mutable part: [flame.config.finished], the logical clock and
    standard output. *)
Record World := mkWorld {
  finished : bool;
  clock : nat;
  stdout : list Printed
}.

Record run (A : Type) := Run {
  events : list Event;
  world : World;
  result : outcome A
}.
Arguments Run {A} events world result.
Arguments events {A} r.
Arguments world {A} r.
Arguments result {A} r.

Definition M (A : Type) : Type := World -> run A.

Definition ret {A} (a : A) : M A := fun w => Run [] w (Ret a).

Definition bind {A B} (m : M A) (f : A -> M B) : M B := fun w =>
  let r := m w in
  match result r with
  | Ret a =>
      let r' := f a (world r) in
      Run (events r ++ events r') (world r') (result r')
  | Raise e => Run (events r) (world r) (Raise e)
  | OutOfFuel => Run (events r) (world r) OutOfFuel
  end.

Definition raise {A} (e : exn) : M A := fun w => Run [] w (Raise e).

Definition out_of_fuel {A} : M A := fun w => Run [] w OutOfFuel.

(** [try: m except: h], with Python's bare [except]. *)
Definition try_except {A} (m : M A) (h : M A) : M A := fun w =>
  let r := m w in
  match result r with
  | Raise _ =>
      let r' := h (world r) in
      Run (events r ++ events r') (world r') (result r')
  | _ => r
  end.

Definition tick (w : World) : World :=
  mkWorld (finished w) (S (clock w)) (stdout w).

Definition print (p : Printed) : M unit := fun w =>
  Run [] (mkWorld (finished w) (clock w) (stdout w ++ [p])) (Ret tt).

Definition lift_exn {A} (x : exn + A) : M A :=
  match x with
  | inl e => raise e
  | inr a => ret a
  end.

Notation "x <- m ;;; k" := (bind m (fun x => k))
  (at level 20, m at level 99, k at level 200, only parsing).
Notation "' pat <- m ;;; k" := (bind m (fun x => match x with pat => k end))
  (at level 20, pat pattern, m at level 99, k at level 200, only parsing).
Notation "m ;;; k" := (bind m (fun _ => k))
  (at level 100, k at level 200, only parsing, right associativity).

(** ** Collaborator calls *)

Variable env : Env.

Definition sleep (secs : nat) : M unit := fun w =>
  Run [EvSleep secs] w (Ret tt).

Definition send_message (receivers : list NodeID) (cat : Category)
    (msg : Body) (timeout : option nat) : M (list NodeID * list NodeID) :=
  fun w =>
    let r := send_reply env (clock w) receivers cat msg timeout in
    Run [EvSendMessage receivers cat msg timeout r] (tick w) (Ret r).

Definition await_and_return_responses (node_ids : list NodeID)
    (cat : Category) (timeout : option nat) : M ResponseDict :=
  fun w =>
    let r := await_reply env (clock w) node_ids cat timeout in
    Run [EvAwaitResponses node_ids cat timeout r] (tick w) (Ret r).

Definition submit_final_result (payload : list byte) : M string := fun w =>
  let r := submit_reply env (clock w) payload in
  Run [EvSubmitFinalResult payload r] (tick w)
      (match r with inl e => Raise e | inr ack => Ret ack end).

(** Modelled from the spec: [FlameCoreSDK.analysis_finished], which is
    not part of the file; "signalAnalysisFinished() -- idempotent, sets
    GlobalConvergedFlag". *)
Definition analysis_finished : M unit := fun w =>
  Run [EvAnalysisFinished] (mkWorld true (clock w) (stdout w)) (Ret tt).

(** [StarModel.converged] returns [self.flame.config.finished].
    Modelled from the spec: the flag behind it is not part of the file;
    it is "process-wide", "monotonic (never reverts true->false)", set
    by [analysis_finished] on the aggregator and "visible to analyzers
    with unspecified latency", here whenever the script [ext_finished]
    says so. *)
Definition converged : M bool := fun w =>
  let f := finished w || ext_finished env (clock w) in
  Run [] (mkWorld f (S (clock w)) (stdout w)) (Ret f).

Definition aggregate (ag : AggregatorObj) (node_results : list string)
    (simple_analysis : bool) : M (Res * bool) := fun w =>
  let r := aggregate_method ag (clock w) node_results simple_analysis in
  Run [EvAggregate node_results simple_analysis r] (tick w) (Ret r).

Definition analyze (an : AnalyzerObj) (data : FetchResult)
    (aggregator_results : option string) (simple_analysis : bool)
    : M (Res * bool) := fun w =>
  let r := analyze_method an (clock w) data aggregator_results
             simple_analysis in
  Run [EvAnalyze data aggregator_results simple_analysis r] (tick w) (Ret r).

Definition node_finished (k : StrategyKind) : M unit := fun w =>
  Run [EvNodeFinished k] w (Ret tt).

(** [client.get(path, headers=[('Connection', 'close')])].  The data
    client is not part of the file: as scripted, its call either
    delivers a response or raises (a transport failure such as
    [ConnectError]), like any call of the underlying HTTP client. *)
Definition client_get (path : string) (headers : list (string * string))
    : M Response := fun w =>
  let r := http_reply env (clock w) path in
  Run [EvHttpGet path headers r] (tick w)
      (match r with inl e => Raise e | inr response => Ret response end).

(** Modelled from the spec: [Response.raise_for_status] of the data
    client, which raises on "any non-2xx status". *)
Definition is_success (r : Response) : bool :=
  (200 <=? status_code r)%Z && (status_code r <? 300)%Z.

Definition raise_for_status (r : Response) : M unit :=
  if is_success r then ret tt else raise (HTTPStatusError (status_code r)).

Definition json (r : Response) : M JSON :=
  match json_body r with
  | Some j => ret j
  | None => raise JSONDecodeError
  end.

(** ** Subscripting *)

(** [d[k]] *)
Definition getitem {V} (d : dict string V) (k : string) : exn + V :=
  match dict_get d k with
  | Some v => inr v
  | None => inl (KeyError k)
  end.

(** [response[-1]] for [response : Optional[list]] *)
Definition last_item {A} (response : option (list A)) : exn + A :=
  match response with
  | None => inl TypeError
  | Some l =>
      match last l with
      | Some x => inr x
      | None => inl IndexError
      end
  end.

(** [response[-1].body['result']] *)
Definition latest_result (response : option (list Message)) : exn + string :=
  match last_item response with
  | inl e => inl e
  | inr m => getitem (body m) "result"
  end.

(** Truth value of an [Optional[list]]: [None] and [[]] are false. *)
Definition truthy (response : option (list Message)) : bool :=
  match response with
  | Some (_ :: _) => true
  | _ => false
  end.

(** [[response[-1].body['result'] for response in values
      if response is not None]] *)
Fixpoint node_results_of (values : list (option (list Message)))
    : exn + list string :=
  match values with
  | [] => inr []
  | None :: values' => node_results_of values'
  | Some l :: values' =>
      match latest_result (Some l) with
      | inl e => inl e
      | inr r =>
          match node_results_of values' with
          | inl e => inl e
          | inr rs => inr (r :: rs)
          end
      end
  end.

(** ** StarModel *)

Definition is_aggregator : bool := String.eqb (role env) "aggregator".

Definition is_analyzer : bool := String.eqb (role env) "default".

(** [isinstance(x, Cls) or issubclass(x, Cls)] *)
Definition isinstance_or_issubclass {Obj} (x : StrategyArg Obj) : M bool :=
  match x with
  | AnInstance _ => ret true
  | ASubclass _ => ret true
  | AnotherClass => ret false
  | NotAClass => raise TypeError
  end.

(** [x if isinstance(x, Cls) else x(flame=self.flame)], reached only
    after the check above succeeded. *)
Definition instance_of {Obj} (k : StrategyKind) (x : StrategyArg Obj)
    : M Obj :=
  match x with
  | AnInstance o => ret o
  | ASubclass init => (fun w => Run [EvInstantiate k] w (Ret init))
  | _ => raise TypeError
  end.

(** The analyzer branch of [_wait_until_partners_ready]:
    [while aggregator_id not in received_list]. *)
Fixpoint analyzer_ready_loop (fuel : nat) (received_list : list NodeID)
    : M (list NodeID) :=
  if bool_decide (aggregator_id env ∈ received_list) then ret received_list
  else
    match fuel with
    | O => out_of_fuel
    | S n =>
        sleep 1 ;;;
        '(received_list', _) <-
          send_message [aggregator_id env] ready_check [] (Some 120) ;;;
        analyzer_ready_loop n received_list'
    end.

(** The aggregator branch: [while True] with its [break]. *)
Fixpoint aggregator_ready_loop (fuel : nat) (analyzer_ids : list NodeID)
    (latest_num_responses num_responses : Z) : M unit :=
  match fuel with
  | O => out_of_fuel
  | S n =>
      sleep 1 ;;;
      latest' <-
        (if (latest_num_responses <? num_responses)%Z
         then print (PAwaitAnalyzers (Z.to_nat num_responses)
                                     (length analyzer_ids)) ;;;
              ret num_responses
         else ret latest_num_responses) ;;;
      '(received_list, _) <-
        send_message analyzer_ids ready_check [] (Some 120) ;;;
      let num_responses' := Z.of_nat (length received_list) in
      if (num_responses' =? Z.of_nat (length analyzer_ids))%Z then ret tt
      else aggregator_ready_loop n analyzer_ids latest' num_responses'
  end.

Definition _wait_until_partners_ready (fuel : nat) : M unit :=
  if is_analyzer then
    print PAwaitAggregator ;;;
    received_list <- analyzer_ready_loop fuel [] ;;;
    (if bool_decide (aggregator_id env ∈ received_list)
     then ret tt
     else raise (BrokenPipeError "Could not contact aggregator")) ;;;
    print PAwaitAggregatorSuccess
  else
    aggregator_ready_loop fuel (participant_ids env) (-1) 0 ;;;
    print PAwaitAnalyzersSuccess.

(** One iteration of the [while] of [start_aggregator]. *)
Definition aggregator_round (ag : AggregatorObj) (simple_analysis : bool)
    : M unit :=
  node_response_dict <-
    await_and_return_responses (partner_node_ids ag) intermediate_results
                               None ;;;
  print (PNodeResponses node_response_dict) ;;;
  if forallb truthy (dict_values node_response_dict) then
    node_results <- lift_exn (node_results_of
                                (dict_values node_response_dict)) ;;;
    print (PNodeResults node_results) ;;;
    '(aggregated_res, conv) <- aggregate ag node_results simple_analysis ;;;
    print (PAggregated aggregated_res) ;;;
    if conv then
      print PSubmitting ;;;
      response <- submit_final_result
                    (String.list_byte_of_string (py_str aggregated_res)) ;;;
      print (PSubmitSuccess response) ;;;
      analysis_finished
    else
      send_message (partner_node_ids ag) aggregated_results
                   [("result", py_str aggregated_res)] None ;;;
      ret tt
  else ret tt.

(** [while not self.converged()] of [start_aggregator]. *)
Fixpoint aggregator_loop (fuel : nat) (ag : AggregatorObj)
    (simple_analysis : bool) : M unit :=
  c <- converged ;;;
  if c then ret tt
  else
    match fuel with
    | O => out_of_fuel
    | S n =>
        aggregator_round ag simple_analysis ;;;
        aggregator_loop n ag simple_analysis
    end.

Definition start_aggregator (aggregator : StrategyArg AggregatorObj)
    (simple_analysis : bool) (fuel : nat) : M unit :=
  if is_aggregator then
    ok <- isinstance_or_issubclass aggregator ;;;
    if ok then
      ag <- instance_of KAggregator aggregator ;;;
      _wait_until_partners_ready fuel ;;;
      aggregator_loop fuel ag simple_analysis ;;;
      node_finished KAggregator
    else raise (BrokenPipeError IS_INCORRECT_CLASS)
  else raise (BrokenPipeError IS_ANALYZER).

(** [f"/{self.flame.config.project_id}/fhir/{query}"] *)
Definition fhir_path (q : string) : string :=
  "/" +:+ project_id env +:+ "/fhir/" +:+ q.

Definition connection_close : list (string * string) :=
  [("Connection", "close")].

(** The [for q in query] of [_get_data], threading [responses]. *)
Fixpoint fetch_queries (query : list string) (responses : gmap string JSON)
    : M (gmap string JSON) :=
  match query with
  | [] => ret responses
  | q :: query' =>
      response <- client_get (fhir_path q) connection_close ;;;
      responses' <-
        try_except
          (raise_for_status response ;;;
           j <- json response ;;;
           ret (<[q:=j]> responses))
          (print (PFailedQuery q) ;;;
           ret responses) ;;;
      fetch_queries query' responses'
  end.

Definition _get_data (query : Query) : M FetchResult :=
  match query with
  | QStr q =>
      response <- client_get (fhir_path q) connection_close ;;;
      try_except
        (raise_for_status response ;;;
         j <- json response ;;;
         ret (FBody j))
        (ret FFalse)
  | QList qs =>
      responses <- fetch_queries qs ∅ ;;;
      ret (match size responses with
           | O => FFalse
           | S _ => FMap responses
           end)
  end.

(** [responses[aggregator_id][-1].body['result']] *)
Definition aggregated_result_of (d : ResponseDict) (aggregator_id : NodeID)
    : exn + string :=
  match getitem d aggregator_id with
  | inl e => inl e
  | inr response => latest_result response
  end.

(** [while not self.converged()] of [start_analyzer]; [conv] is the
    local variable [converged]. *)
Fixpoint analyzer_loop (fuel : nat) (an : AnalyzerObj) (data : FetchResult)
    (simple_analysis : bool) (aggregator_results : option string)
    (conv : bool) : M unit :=
  c <- converged ;;;
  if c then ret tt
  else
    match fuel with
    | O => out_of_fuel
    | S n =>
        conv' <-
          (if negb conv then
             '(analyzer_res, conv1) <-
               analyze an data aggregator_results simple_analysis ;;;
             send_message [aggregator_id env] intermediate_results
                          [("result", py_str analyzer_res)] None ;;;
             ret conv1
           else ret conv) ;;;
        c2 <- converged ;;;
        aggregator_results' <-
          (if negb c2 && negb conv' then
             d <- await_and_return_responses [aggregator_id env]
                    aggregated_results (Some 300) ;;;
             r <- lift_exn (aggregated_result_of d (aggregator_id env)) ;;;
             ret (Some r)
           else ret aggregator_results) ;;;
        analyzer_loop n an data simple_analysis aggregator_results' conv'
    end.

Definition start_analyzer (analyzer : StrategyArg AnalyzerObj)
    (query : Query) (simple_analysis : bool) (fuel : nat) : M unit :=
  if is_analyzer then
    ok <- isinstance_or_issubclass analyzer ;;;
    if ok then
      an <- instance_of KAnalyzer analyzer ;;;
      _wait_until_partners_ready fuel ;;;
      data <- _get_data query ;;;
      print (PDataExtracted data) ;;;
      analyzer_loop fuel an data simple_analysis None false ;;;
      node_finished KAnalyzer
    else raise (BrokenPipeError IS_INCORRECT_CLASS)
  else raise (BrokenPipeError IS_AGGREGATOR).

(** ** Vocabulary of the statements *)

(** The reply to the [ready_check] sent at clock [t]. *)
Definition ready_attempt (receivers : list NodeID) (t : nat)
    : list NodeID * list NodeID :=
  send_reply env t receivers ready_check [] (Some 120).

(** What the [try] block of [_get_data] obtains from a response: the
    parsed body when the status is 2xx and the body parses. *)
Definition parsed_body (r : Response) : option JSON :=
  if is_success r then json_body r else None.

(** The outcome of the GET for query [q] issued at clock [t]. *)
Definition fetched (t : nat) (q : string) : option JSON :=
  match http_reply env t (fhir_path q) with
  | inr r => parsed_body r
  | inl _ => None
  end.

(** The GET for query [q] issued at clock [t] delivers a response. *)
Definition responds (t : nat) (q : string) : Prop :=
  exists r, http_reply env t (fhir_path q) = inr r.

(** The GETs for the queries [qs], issued one per clock tick from [t]
    on, all deliver a response. *)
Definition source_responds (t : nat) (qs : list string) : Prop :=
  forall i q, qs !! i = Some q -> responds (t + i) q.

(** The collaborator's reply to a wait for the partners of [ag] has an
    entry for each of them ("absent/timed-out senders map to
    null/empty"). *)
Definition reply_covers_partners (ag : AggregatorObj) : Prop :=
  forall t p,
    p ∈ partner_node_ids ag ->
    is_Some (dict_get (await_reply env t (partner_node_ids ag)
                         intermediate_results None) p).

(** A recorded wait carries the reply the environment scripted for
    it. *)
Definition scripted_wait (e : Event) : Prop :=
  match e with
  | EvAwaitResponses node_ids cat timeout d =>
      exists t, d = await_reply env t node_ids cat timeout
  | _ => True
  end.

(** The aggregator's wait for [intermediate_results] and its reply. *)
Definition awaited (ag : AggregatorObj) (d : ResponseDict) : Event :=
  EvAwaitResponses (partner_node_ids ag) intermediate_results None d.

(** [BytesIO(str(aggregated_res).encode('utf8'))] *)
Definition final_payload (aggregated_res : Res) : list byte :=
  String.list_byte_of_string (py_str aggregated_res).

(** Every entry of a response dict is a non-empty message list. *)
Definition all_present (d : ResponseDict) : Prop :=
  forall p v, (p, v) ∈ d -> exists m ms, v = Some (m :: ms).

(** The calls made only inside a round of the aggregator. *)
Definition round_event (e : Event) : Prop :=
  match e with
  | EvAggregate _ _ _ | EvSubmitFinalResult _ _ | EvAnalysisFinished => True
  | _ => False
  end.

(** Number of [analysis_finished] calls in a trace. *)
Fixpoint signals (evs : list Event) : nat :=
  match evs with
  | [] => 0
  | EvAnalysisFinished :: evs' => S (signals evs')
  | _ :: evs' => signals evs'
  end.

(** The traces of the aggregator's [while] loop, round by round, with
    the outcome of the loop and the value of the flag at its end. *)
Inductive agg_trace (ag : AggregatorObj) (simple : bool)
    : list Event -> outcome unit -> bool -> Prop :=
| at_converged :
    agg_trace ag simple [] (Ret tt) true
| at_out_of_fuel :
    agg_trace ag simple [] OutOfFuel false
| at_incomplete d evs out fin :
    forallb truthy (dict_values d) = false ->
    agg_trace ag simple evs out fin ->
    agg_trace ag simple (awaited ag d :: evs) out fin
| at_malformed d e :
    forallb truthy (dict_values d) = true ->
    node_results_of (dict_values d) = inl e ->
    agg_trace ag simple [awaited ag d] (Raise e) false
| at_broadcast d rs res reply evs out fin :
    forallb truthy (dict_values d) = true ->
    node_results_of (dict_values d) = inr rs ->
    agg_trace ag simple evs out fin ->
    agg_trace ag simple
      (awaited ag d
       :: EvAggregate rs simple (res, false)
       :: EvSendMessage (partner_node_ids ag) aggregated_results
            [("result", py_str res)] None reply
       :: evs) out fin
| at_submit_failed d rs res e :
    forallb truthy (dict_values d) = true ->
    node_results_of (dict_values d) = inr rs ->
    agg_trace ag simple
      [awaited ag d;
       EvAggregate rs simple (res, true);
       EvSubmitFinalResult (final_payload res) (inl e)]
      (Raise e) false
| at_final d rs res ack :
    forallb truthy (dict_values d) = true ->
    node_results_of (dict_values d) = inr rs ->
    agg_trace ag simple
      [awaited ag d;
       EvAggregate rs simple (res, true);
       EvSubmitFinalResult (final_payload res) (inr ack);
       EvAnalysisFinished]
      (Ret tt) true.

End Star.

Arguments Run {Res JSON A} events world result.
Arguments events {Res JSON A} r.
Arguments world {Res JSON A} r.
Arguments result {Res JSON A} r.
Arguments Response : clear implicits.
Arguments FetchResult : clear implicits.
Arguments Printed : clear implicits.
Arguments run : clear implicits.
Arguments M : clear implicits.
Arguments Env : clear implicits.
Arguments World : clear implicits.
Arguments AggregatorObj : clear implicits.
Arguments AnalyzerObj : clear implicits.
Arguments Event : clear implicits.

(** ** Vocabulary of the further properties *)

Section Vocabulary.

Context {Res JSON : Type}.
Variable py_str : Res -> string.
Variable env : Env JSON.

(** One turn of the readiness handshake: a second of sleep, then an
    empty [ready_check] with a timeout of 120. *)
Definition ready_turn (receivers : list NodeID)
    (reply : list NodeID * list NodeID) : list (Event Res JSON) :=
  [EvSleep 1; EvSendMessage receivers ready_check [] (Some 120) reply].

(** The stage of a run to which a call belongs: instantiation of the
    strategy (0), readiness handshake (1), data fetch (2), rounds (3),
    finalisation hook (4). *)
Definition phase (e : Event Res JSON) : nat :=
  match e with
  | EvInstantiate _ => 0
  | EvSleep _ => 1
  | EvSendMessage _ ready_check _ _ _ => 1
  | EvHttpGet _ _ _ => 2
  | EvNodeFinished _ => 4
  | _ => 3
  end.

(** The calls of a trace are made stage after stage. *)
Definition in_phase_order (evs : list (Event Res JSON)) : Prop :=
  forall i j e1 e2,
    i < j -> evs !! i = Some e1 -> evs !! j = Some e2 ->
    phase e1 <= phase e2.

(** The traces of the analyzer's [while] loop entered with
    [aggregator_results = agg] and the local flag [conv], iteration by
    iteration, with the outcome of the loop and the value of the global
    flag at its end. *)
Inductive an_trace (an : AnalyzerObj Res JSON) (data : FetchResult JSON)
    (simple : bool)
    : option string -> bool -> list (Event Res JSON) -> outcome unit ->
      bool -> Prop :=
| nt_converged agg conv :
    an_trace an data simple agg conv [] (Ret tt) true
| nt_out_of_fuel agg conv :
    an_trace an data simple agg conv [] OutOfFuel false
| nt_local agg res reply out fin :
    an_trace an data simple agg true [] out fin ->
    an_trace an data simple agg false
      [EvAnalyze data agg simple (res, true);
       EvSendMessage [aggregator_id env] intermediate_results
         [("result", py_str res)] None reply]
      out fin
| nt_flag_seen agg res reply :
    an_trace an data simple agg false
      [EvAnalyze data agg simple (res, false);
       EvSendMessage [aggregator_id env] intermediate_results
         [("result", py_str res)] None reply]
      (Ret tt) true
| nt_wait_failed agg res reply d e :
    aggregated_result_of d (aggregator_id env) = inl e ->
    an_trace an data simple agg false
      [EvAnalyze data agg simple (res, false);
       EvSendMessage [aggregator_id env] intermediate_results
         [("result", py_str res)] None reply;
       EvAwaitResponses [aggregator_id env] aggregated_results (Some 300) d]
      (Raise e) false
| nt_round agg res reply d r evs out fin :
    aggregated_result_of d (aggregator_id env) = inr r ->
    an_trace an data simple (Some r) false evs out fin ->
    an_trace an data simple agg false
      (EvAnalyze data agg simple (res, false)
       :: EvSendMessage [aggregator_id env] intermediate_results
            [("result", py_str res)] None reply
       :: EvAwaitResponses [aggregator_id env] aggregated_results
            (Some 300) d
       :: evs)
      out fin.

End Vocabulary.

(** ** Example deployments

    Strategy results and parsed bodies are plain strings here, and
    [str] is the identity. *)

Definition w0 : World string string := mkWorld false 0 [].

(** A deployment with aggregator [agg] and analyzers [n1], [n2] in which
    every message is acknowledged by all its receivers, no
    [intermediate_results] or [aggregated_results] ever arrive and the
    data source answers 200. *)
Definition quiet_env (r : string) : Env string :=
  {| role := r;
     aggregator_id := "agg";
     participant_ids := ["n1"; "n2"];
     project_id := "p1";
     ext_finished := fun _ => false;
     send_reply := fun _ receivers _ _ _ => (receivers, []);
     await_reply := fun _ node_ids _ _ => map (fun i => (i, None)) node_ids;
     submit_reply := fun _ _ => inr "stored";
     http_reply := fun _ _ => inr (mkResponse 200 (Some "{}")) |}.

Definition sum_strategy : AggregatorObj string :=
  {| partner_node_ids := ["n1"; "n2"];
     aggregate_method := fun _ rs _ => (String.concat "+" rs, true) |}.

Definition count_strategy : AnalyzerObj string string :=
  {| analyze_method := fun _ _ _ _ => ("5", false) |}.

(** The aggregator never acknowledges a [ready_check]. *)
Definition unreachable_env : Env string :=
  {| role := "default";
     aggregator_id := "agg";
     participant_ids := ["n1"; "n2"];
     project_id := "p1";
     ext_finished := fun _ => false;
     send_reply := fun _ receivers _ _ _ => ([], receivers);
     await_reply := fun _ node_ids _ _ => map (fun i => (i, None)) node_ids;
     submit_reply := fun _ _ => inr "stored";
     http_reply := fun _ _ => inr (mkResponse 200 (Some "{}")) |}.

(** The analyzers [n1] and [n2] acknowledge alternately: [n1] the
    attempts at even clock values, [n2] those at odd ones. *)
Definition alternating_env : Env string :=
  {| role := "aggregator";
     aggregator_id := "agg";
     participant_ids := ["n1"; "n2"];
     project_id := "p1";
     ext_finished := fun _ => false;
     send_reply := fun t _ _ _ _ =>
       if Nat.even t then (["n1"], ["n2"]) else (["n2"], ["n1"]);
     await_reply := fun _ node_ids _ _ => map (fun i => (i, None)) node_ids;
     submit_reply := fun _ _ => inr "stored";
     http_reply := fun _ _ => inr (mkResponse 200 (Some "{}")) |}.

Definition result_message (sender result : string) : Message :=
  mkMessage sender intermediate_results [("result", result)].

(** Both analyzers have sent their result ([5] and [7]) whenever the
    aggregator waits; the storage service answers [submit]. *)
Definition answering_env (submit : exn + string) : Env string :=
  {| role := "aggregator";
     aggregator_id := "agg";
     participant_ids := ["n1"; "n2"];
     project_id := "p1";
     ext_finished := fun _ => false;
     send_reply := fun _ receivers _ _ _ => (receivers, []);
     await_reply := fun _ _ _ _ =>
       [("n1", Some [result_message "n1" "5"]);
        ("n2", Some [result_message "n2" "7"])];
     submit_reply := fun _ _ => submit;
     http_reply := fun _ _ => inr (mkResponse 200 (Some "{}")) |}.

(** The analysis strategy converges locally at its first call. *)
Definition one_shot_strategy : AnalyzerObj string string :=
  {| analyze_method := fun _ _ _ _ => ("5", true) |}.

(** The data source answers 500 to the query [Observation] and 200,
    with the path as body, to every other query. *)
Definition flaky_source_env : Env string :=
  {| role := "default";
     aggregator_id := "agg";
     participant_ids := ["n1"; "n2"];
     project_id := "p1";
     ext_finished := fun _ => false;
     send_reply := fun _ receivers _ _ _ => (receivers, []);
     await_reply := fun _ node_ids _ _ => map (fun i => (i, None)) node_ids;
     submit_reply := fun _ _ => inr "stored";
     http_reply := fun _ path =>
       if String.eqb path "/p1/fhir/Observation"
       then inr (mkResponse 500 None)
       else inr (mkResponse 200 (Some path)) |}.

(** The data source cannot be reached for the query [Observation]: the
    GET itself raises; every other query is answered 200. *)
Definition unreachable_source_env : Env string :=
  {| role := "default";
     aggregator_id := "agg";
     participant_ids := ["n1"; "n2"];
     project_id := "p1";
     ext_finished := fun _ => false;
     send_reply := fun _ receivers _ _ _ => (receivers, []);
     await_reply := fun _ node_ids _ _ => map (fun i => (i, None)) node_ids;
     submit_reply := fun _ _ => inr "stored";
     http_reply := fun _ path =>
       if String.eqb path "/p1/fhir/Observation"
       then inl (ConnectError "All connection attempts failed")
       else inr (mkResponse 200 (Some path)) |}.

(** The aggregator answers every wait of an analyzer with the
    aggregated result [12]. *)
Definition feedback_env : Env string :=
  {| role := "default";
     aggregator_id := "agg";
     participant_ids := ["n1"; "n2"];
     project_id := "p1";
     ext_finished := fun _ => false;
     send_reply := fun _ receivers _ _ _ => (receivers, []);
     await_reply := fun _ _ _ _ =>
       [("agg", Some [mkMessage "agg" aggregated_results
                        [("result", "12")]])];
     submit_reply := fun _ _ => inr "stored";
     http_reply := fun _ _ => inr (mkResponse 200 (Some "{}")) |}.

(** The global flag is seen set from clock 4 on. *)
Definition finishing_env : Env string :=
  {| role := "default";
     aggregator_id := "agg";
     participant_ids := ["n1"; "n2"];
     project_id := "p1";
     ext_finished := fun t => Nat.leb 4 t;
     send_reply := fun _ receivers _ _ _ => (receivers, []);
     await_reply := fun _ node_ids _ _ => map (fun i => (i, None)) node_ids;
     submit_reply := fun _ _ => inr "stored";
     http_reply := fun _ _ => inr (mkResponse 200 (Some "{}")) |}.

(** * Properties *)

Section Properties.

Context {Res JSON : Type}.
Variable py_str : Res -> string.
Variable env : Env JSON.

Implicit Types (w : World Res JSON) (fuel : nat) (simple : bool).
Implicit Types (evs : list (Event Res JSON)) (out : outcome unit).

Lemma is_aggregator_spec : is_aggregator env = true <-> role env = "aggregator".
Proof. unfold is_aggregator. apply String.eqb_eq. Qed.

Lemma is_analyzer_spec : is_analyzer env = true <-> role env = "default".
Proof. unfold is_analyzer. apply String.eqb_eq. Qed.

Lemma is_aggregator_false : role env <> "aggregator" -> is_aggregator env = false.
Proof.
  intros H. destruct (is_aggregator env) eqn:E; [|done].
  by apply is_aggregator_spec in E.
Qed.

Lemma is_analyzer_false : role env <> "default" -> is_analyzer env = false.
Proof.
  intros H. destruct (is_analyzer env) eqn:E; [|done].
  by apply is_analyzer_spec in E.
Qed.

(** C7. Role mismatch atomicity: the aggregator entrypoint on a process
    whose role is not aggregator raises the configuration error at once:
    no collaborator call is recorded (no readiness handshake, no
    message, no strategy instantiation) and the world is untouched; the
    same holds for the analyzer entrypoint on a process whose role is
    not analyzer. *)
Theorem role_mismatch_fails_before_any_effect
    (aggregator : StrategyArg (AggregatorObj Res))
    (analyzer : StrategyArg (AnalyzerObj Res JSON))
    (query : Query) simple fuel w :
  (role env <> "aggregator" ->
   start_aggregator py_str env aggregator simple fuel w
   = Run [] w (Raise (BrokenPipeError IS_ANALYZER)))
  /\
  (role env <> "default" ->
   start_analyzer py_str env analyzer query simple fuel w
   = Run [] w (Raise (BrokenPipeError IS_AGGREGATOR))).
Proof.
  split; intros H.
  - unfold start_aggregator. by rewrite (is_aggregator_false H).
  - unfold start_analyzer. by rewrite (is_analyzer_false H).
Qed.

(** C10. Roles are recognised by exact string match only, so a process
    whose role is neither ['aggregator'] nor ['default'] is rejected by
    both entrypoints: [start_aggregator] raises the "configured as
    analyzer" error and [start_analyzer] the "configured as aggregator"
    error. *)
Theorem unknown_role_rejected_by_both_entrypoints
    (aggregator : StrategyArg (AggregatorObj Res))
    (analyzer : StrategyArg (AnalyzerObj Res JSON))
    (query : Query) simple fuel w :
  role env <> "aggregator" ->
  role env <> "default" ->
  is_aggregator env = false /\
  is_analyzer env = false /\
  result (start_aggregator py_str env aggregator simple fuel w)
  = Raise (BrokenPipeError
      "Node is configured as analyzer. Unable to execute command associated to aggregator.") /\
  result (start_analyzer py_str env analyzer query simple fuel w)
  = Raise (BrokenPipeError
      "Node is configured as aggregator. Unable to execute command associated to analyzer.").
Proof.
  intros Hag Han.
  pose proof (is_aggregator_false Hag) as Eag.
  pose proof (is_analyzer_false Han) as Ean.
  repeat split; try assumption.
  - unfold start_aggregator. by rewrite Eag.
  - unfold start_analyzer. by rewrite Ean.
Qed.

(** C8. Data fetch adapter, single query: one GET is issued for the
    query; on the response it delivers, the adapter returns the parsed
    body when the status is 2xx and the body parses, and the sentinel
    [False] otherwise, without raising; only an exception of the GET
    call itself, made before the [try], leaves the adapter. *)
Theorem get_data_single_query (q : string) w :
  _get_data env (QStr q) w
  = Run [EvHttpGet (fhir_path env q) [("Connection", "close")]
                   (http_reply env (clock w) (fhir_path env q))]
        (tick w)
        (match http_reply env (clock w) (fhir_path env q) with
         | inr response =>
             Ret (match json_body response with
                  | Some j => if is_success response then FBody j else FFalse
                  | None => FFalse
                  end)
         | inl e => Raise e
         end).
Proof.
  cbn. unfold try_except, bind, raise_for_status, json, client_get. cbn.
  destruct (http_reply env (clock w) (fhir_path env q)) as [e|response];
    cbn; [done|].
  destruct (is_success _) eqn:Es; cbn.
  - destruct (json_body _) eqn:Ej; cbn; by rewrite ?app_nil_r.
  - by destruct (json_body _).
Qed.

(** ** Readiness handshake, analyzer side *)

(** The analyzer's loop returns only a list that holds the aggregator,
    and never raises. *)
Lemma analyzer_ready_loop_result fuel (received : list NodeID) w :
  match result (analyzer_ready_loop env fuel received w) with
  | Ret l => aggregator_id env ∈ l
  | Raise _ => False
  | OutOfFuel => True
  end.
Proof.
  revert received w. induction fuel as [|n IH]; intros received w; cbn.
  - case_bool_decide; cbn; done.
  - case_bool_decide; cbn; [done|].
    unfold bind; cbn.
    destruct (send_reply _ _ _ _ _ _) as [rl nl] eqn:Er; cbn.
    specialize (IH rl (tick w)).
    destruct (result (analyzer_ready_loop env n rl (tick w))); cbn; done.
Qed.

(** The [raise BrokenPipeError("Could not contact aggregator")] after
    the analyzer's loop is unreachable. *)
Lemma analyzer_handshake_never_raises fuel w e :
  is_analyzer env = true ->
  result (_wait_until_partners_ready env fuel w) <> Raise e.
Proof.
  intros Han. unfold _wait_until_partners_ready. rewrite Han.
  unfold bind at 1; cbn. unfold bind at 1; cbn.
  match goal with |- context [analyzer_ready_loop env fuel [] ?w1] =>
    pose proof (analyzer_ready_loop_result fuel [] w1) as H;
    destruct (result (analyzer_ready_loop env fuel [] w1)) as [l| |] eqn:E
  end; cbn; try done.
  unfold bind; cbn. by rewrite bool_decide_eq_true_2.
Qed.

(** As long as no attempt is acknowledged by the aggregator, the loop
    keeps running: one sleep and one [ready_check] per iteration. *)
Lemma analyzer_ready_loop_unreachable fuel (received : list NodeID) w :
  (forall t, aggregator_id env ∉ (ready_attempt env [aggregator_id env] t).1) ->
  aggregator_id env ∉ received ->
  result (analyzer_ready_loop env fuel received w) = OutOfFuel /\
  length (events (analyzer_ready_loop env fuel received w)) = 2 * fuel.
Proof.
  intros Hno. revert received w.
  induction fuel as [|n IH]; intros received w Hr; cbn.
  - by rewrite bool_decide_eq_false_2.
  - rewrite bool_decide_eq_false_2 by done.
    unfold bind; cbn.
    pose proof (Hno (clock w)) as Hc. unfold ready_attempt in Hc.
    destruct (send_reply _ _ _ _ _ _) as [rl nl] eqn:Er; cbn in *.
    destruct (IH rl (tick w) Hc) as [E1 E2].
    rewrite E1; cbn. rewrite E2. split; [done|lia].
Qed.

(** The loop returns at the first attempt the aggregator acknowledges. *)
Lemma analyzer_ready_loop_success fuel k (received : list NodeID) w :
  k < fuel ->
  aggregator_id env ∉ received ->
  (forall i, i < k ->
     aggregator_id env ∉ (ready_attempt env [aggregator_id env] (clock w + i)).1) ->
  aggregator_id env ∈ (ready_attempt env [aggregator_id env] (clock w + k)).1 ->
  result (analyzer_ready_loop env fuel received w)
  = Ret (ready_attempt env [aggregator_id env] (clock w + k)).1 /\
  length (events (analyzer_ready_loop env fuel received w)) = 2 * S k.
Proof.
  revert k received w.
  induction fuel as [|n IH]; intros k received w Hk Hr Hbefore Hat; [lia|].
  cbn. rewrite bool_decide_eq_false_2 by done.
  unfold bind; cbn. unfold ready_attempt in *.
  destruct k as [|k].
  - rewrite Nat.add_0_r in Hat.
    destruct (send_reply _ _ _ _ _ _) as [rl nl] eqn:Er; cbn in *.
    destruct n; cbn; rewrite bool_decide_eq_true_2 by done; cbn;
      by rewrite Nat.add_0_r, Er.
  - pose proof (Hbefore 0 ltac:(lia)) as H0. rewrite Nat.add_0_r in H0.
    destruct (send_reply env (clock w) _ _ _ _) as [rl nl] eqn:Er; cbn in *.
    destruct (IH k rl (tick w)) as [E1 E2]; [lia|done| | |].
    + intros i Hi. cbn. replace (S (clock w + i)) with (clock w + S i) by lia.
      apply Hbefore. lia.
    + cbn. by replace (S (clock w + k)) with (clock w + S k) by lia.
    + rewrite E1; cbn. rewrite E2. cbn in *.
      replace (S (clock w + k)) with (clock w + S k) by lia.
      split; [done|lia].
Qed.

(** ** Readiness handshake, aggregator side *)

Lemma aggregator_ready_loop_no_raise fuel (ids : list NodeID)
    (latest num : Z) w :
  result (aggregator_ready_loop env fuel ids latest num w) = Ret tt \/
  result (aggregator_ready_loop env fuel ids latest num w) = OutOfFuel.
Proof.
  revert latest num w.
  induction fuel as [|n IH]; intros latest num w; cbn; [by right|].
  unfold bind; cbn.
  destruct (latest <? num)%Z; cbn;
    destruct (send_reply _ _ _ _ _ _) as [rl nl]; cbn;
    destruct (_ =? _)%Z; cbn; auto;
    match goal with |- context [aggregator_ready_loop env n ids ?l ?m ?w1] =>
      destruct (IH l m w1) as [E|E]; rewrite E; cbn; auto
    end.
Qed.

(** One iteration of the aggregator's loop: only the length of the
    current reply decides whether it breaks. *)
Lemma aggregator_ready_loop_step n (ids : list NodeID) (latest num : Z) w :
  exists latest' w1,
    clock w1 = S (clock w) /\
    result (aggregator_ready_loop env (S n) ids latest num w)
    = if decide (length (ready_attempt env ids (clock w)).1 = length ids)
      then Ret tt
      else result (aggregator_ready_loop env n ids latest'
                     (Z.of_nat (length (ready_attempt env ids (clock w)).1))
                     w1).
Proof.
  exists (if (latest <? num)%Z then num else latest).
  exists (tick (if (latest <? num)%Z
                then mkWorld (finished w) (clock w)
                       (stdout w ++ [PAwaitAnalyzers (Z.to_nat num)
                                                     (length ids)])
                else w)).
  split; [by destruct (latest <? num)%Z|].
  cbn. unfold bind; cbn. unfold ready_attempt.
  destruct (latest <? num)%Z; cbn;
    destruct (send_reply env (clock w) ids ready_check [] (Some 120))
      as [rl nl] eqn:Er; cbn;
    (destruct (Z.of_nat (length rl) =? Z.of_nat (length ids))%Z eqn:Eq; cbn;
     [apply Z.eqb_eq in Eq | apply Z.eqb_neq in Eq]);
    (case_decide; [|]; try lia); try reflexivity.
Qed.

(** The loop breaks exactly at an attempt whose reply is as long as the
    list of analyzers; earlier replies play no part. *)
Lemma aggregator_ready_loop_result fuel (ids : list NodeID)
    (latest num : Z) w :
  result (aggregator_ready_loop env fuel ids latest num w) = Ret tt <->
  exists k, k < fuel /\
    length (ready_attempt env ids (clock w + k)).1 = length ids.
Proof.
  revert latest num w.
  induction fuel as [|n IH]; intros latest num w.
  - cbn. split; [done|]. intros (k & Hk & _). lia.
  - destruct (aggregator_ready_loop_step n ids latest num w)
      as (latest' & w1 & Hc & ->).
    case_decide as Hlen.
    + split; [|done]. intros _. exists 0. split; [lia|].
      by rewrite Nat.add_0_r.
    + rewrite IH, Hc. split.
      * intros (k & Hk & Hk'). exists (S k). split; [lia|].
        by replace (clock w + S k) with (S (clock w) + k) by lia.
      * intros (k & Hk & Hk'). destruct k as [|k].
        { by rewrite Nat.add_0_r in Hk'. }
        exists k. split; [lia|].
        by replace (S (clock w) + k) with (clock w + S k) by lia.
Qed.

(** C3, as amended. Aggregator-side readiness: the handshake returns
    exactly when some single [ready_check] attempt is answered by as
    many nodes as there are analyzers; replies of earlier attempts are
    not accumulated. *)
Theorem aggregator_handshake_needs_one_full_attempt fuel w :
  role env <> "default" ->
  result (_wait_until_partners_ready env fuel w) = Ret tt <->
  exists k, k < fuel /\
    length (ready_attempt env (participant_ids env) (clock w + k)).1
    = length (participant_ids env).
Proof.
  intros Hrole. unfold _wait_until_partners_ready.
  rewrite (is_analyzer_false Hrole).
  rewrite <- (aggregator_ready_loop_result fuel (participant_ids env)
                (-1) 0 w).
  unfold bind.
  destruct (aggregator_ready_loop_no_raise fuel (participant_ids env)
              (-1) 0 w) as [E|E]; rewrite E; cbn; [done|].
  split; discriminate.
Qed.

(** ** Data fetch adapter *)

(** One turn of the [for] loop: the GET is issued, a success is stored
    under the query, a failure leaves the mapping as it is, and the loop
    goes on with the remaining queries either way. *)
Lemma source_responds_cons t q (qs : list string) :
  source_responds env t (q :: qs) ->
  responds env t q /\ source_responds env (S t) qs.
Proof.
  intros H. split.
  - specialize (H 0 q eq_refl). by rewrite Nat.add_0_r in H.
  - intros i q' Hi. specialize (H (S i) q' Hi).
    by replace (t + S i) with (S t + i) in H by lia.
Qed.

Lemma fetch_queries_step q (qs : list string) (acc : gmap string JSON) w :
  responds env (clock w) q ->
  exists w1,
    clock w1 = S (clock w) /\
    let acc' := match fetched env (clock w) q with
                | Some j => <[q:=j]> acc
                | None => acc
                end in
    events (fetch_queries env (q :: qs) acc w)
    = EvHttpGet (fhir_path env q) [("Connection", "close")]
                (http_reply env (clock w) (fhir_path env q))
      :: events (fetch_queries env qs acc' w1) /\
    result (fetch_queries env (q :: qs) acc w)
    = result (fetch_queries env qs acc' w1).
Proof.
  intros [r Hr]. unfold fetched, parsed_body. cbn.
  unfold bind, try_except, client_get, raise_for_status, json; cbn.
  rewrite Hr; cbn.
  destruct (is_success _) eqn:Es; cbn;
    [destruct (json_body _) eqn:Ej; cbn|].
  all: eexists; split; [|split]; cbn.
  all: try match goal with
       | |- context [fetch_queries ?e ?l ?a ?w1] =>
           destruct (result (fetch_queries e l a w1)); cbn; reflexivity
       end.
  all: reflexivity.
Qed.

Lemma fetch_queries_spec (qs : list string) (acc : gmap string JSON) w :
  source_responds env (clock w) qs ->
  exists m,
    result (fetch_queries env qs acc w) = Ret m /\
    events (fetch_queries env qs acc w)
    = imap (fun i q =>
              EvHttpGet (fhir_path env q) [("Connection", "close")]
                        (http_reply env (clock w + i) (fhir_path env q))) qs /\
    (forall q, is_Some (m !! q) <->
       is_Some (acc !! q) \/
       exists i, qs !! i = Some q /\ is_Some (fetched env (clock w + i) q)) /\
    (forall q j, m !! q = Some j ->
       acc !! q = Some j \/
       exists i, qs !! i = Some q /\ fetched env (clock w + i) q = Some j).
Proof.
  revert acc w. induction qs as [|q0 qs IH]; intros acc w Hsrc.
  - exists acc. cbn. repeat split; auto.
    + intros [H|(i & Hi & _)]; [done|]. by rewrite lookup_nil in Hi.
  - apply source_responds_cons in Hsrc as [Hq0 Hsrc].
    destruct (fetch_queries_step q0 qs acc w Hq0) as (w1 & Hc & Hev & Hres).
    cbn zeta in Hev, Hres. rewrite Hev, Hres.
    set (acc' := match fetched env (clock w) q0 with
                 | Some j => <[q0:=j]> acc
                 | None => acc
                 end) in *.
    destruct (IH acc' w1) as (m & Em & Eev & Hkeys & Hvals);
      [by rewrite Hc|].
    exists m. rewrite Em, Eev, Hc. split; [done|]. split; [|split].
    + cbn. rewrite Nat.add_0_r. f_equal.
      apply imap_ext. intros i x _. cbn.
      by replace (clock w + S i) with (S (clock w + i)) by lia.
    + intros q. rewrite Hkeys, Hc. split.
      * intros [Hacc|(i & Hi & Hf)].
        -- subst acc'. destruct (fetched env (clock w) q0) as [j|] eqn:Ef;
             [|by left].
           destruct (decide (q0 = q)) as [->|Hne].
           ++ right. exists 0. split; [done|]. by rewrite Nat.add_0_r, Ef.
           ++ left. by rewrite lookup_insert_ne in Hacc.
        -- right. exists (S i). split; [done|].
           by replace (clock w + S i) with (S (clock w) + i) by lia.
      * intros [Hacc|(i & Hi & Hf)].
        -- left. subst acc'. destruct (fetched env (clock w) q0) as [j|];
             [|done].
           destruct (decide (q0 = q)) as [->|Hne].
           ++ rewrite lookup_insert_eq. by eexists.
           ++ by rewrite lookup_insert_ne.
        -- destruct i as [|i]; cbn in Hi.
           ++ injection Hi as ->. left. subst acc'.
              rewrite Nat.add_0_r in Hf. destruct Hf as [j Hj]. rewrite Hj.
              rewrite lookup_insert_eq. by eexists.
           ++ right. exists i. split; [done|].
              by replace (S (clock w) + i) with (clock w + S i) by lia.
    + intros q j Hm. destruct (Hvals q j Hm) as [Hacc|(i & Hi & Hf)].
      * subst acc'. destruct (fetched env (clock w) q0) as [j0|] eqn:Ef;
          [|by left].
        destruct (decide (q0 = q)) as [->|Hne].
        -- rewrite lookup_insert_eq in Hacc. injection Hacc as ->.
           right. exists 0. split; [done|]. by rewrite Nat.add_0_r.
        -- left. by rewrite lookup_insert_ne in Hacc.
      * right. exists (S i). split; [done|]. rewrite Hc in Hf.
        by replace (clock w + S i) with (S (clock w) + i) by lia.
Qed.

(** Several queries, when every GET delivers a response: one GET is
    issued per query, in order, whatever the earlier ones gave; the
    adapter returns; the mapping [m] it has built has exactly the
    queries with a successful GET as keys, each with a parsed body
    fetched for it; it returns [m], or [False] when [m] is empty. *)
Lemma get_data_many_queries (qs : list string) w :
  source_responds env (clock w) qs ->
  exists m : gmap string JSON,
    events (_get_data env (QList qs) w)
    = imap (fun i q =>
              EvHttpGet (fhir_path env q) [("Connection", "close")]
                        (http_reply env (clock w + i) (fhir_path env q))) qs /\
    (forall q, is_Some (m !! q) <->
       exists i, qs !! i = Some q /\ is_Some (fetched env (clock w + i) q)) /\
    (forall q j, m !! q = Some j ->
       exists i, qs !! i = Some q /\ fetched env (clock w + i) q = Some j) /\
    (m <> ∅ /\ result (_get_data env (QList qs) w) = Ret (FMap m) \/
     m = ∅ /\ result (_get_data env (QList qs) w) = Ret FFalse).
Proof.
  intros Hsrc.
  destruct (fetch_queries_spec qs ∅ w Hsrc) as (m & Em & Eev & Hkeys & Hvals).
  exists m. cbn. unfold bind. rewrite Em, Eev. cbn.
  rewrite app_nil_r. split; [done|]. split; [|split].
  - intros q. rewrite Hkeys, lookup_empty. split.
    + intros [[? ?]|H]; [done|exact H].
    + intros H. by right.
  - intros q j Hm. destruct (Hvals q j Hm) as [H|H]; [|exact H].
    by rewrite lookup_empty in H.
  - destruct (size m) eqn:Es.
    + right. split; [|done]. by apply map_size_empty_iff.
    + left. split; [|done]. intros ->. by rewrite map_size_empty in Es.
Qed.

(** ** Round coordinator, analyzer side *)

Lemma app_cons_inv {A} (pre : list A) (x : A) (post : list A) e l :
  pre ++ x :: post = e :: l ->
  (pre = [] /\ x = e /\ post = l) \/
  (exists pre', pre = e :: pre' /\ pre' ++ x :: post = l).
Proof.
  destruct pre as [|p pre]; cbn; intros H; injection H as H1 H2; subst;
    eauto.
Qed.

Lemma app_cons_not_nil {A} (pre : list A) (x : A) (post : list A) :
  pre ++ x :: post <> [].
Proof. by destruct pre. Qed.

(** With the local flag set, an iteration calls no collaborator: it only
    polls the global flag. *)
Lemma analyzer_loop_locally_converged fuel (an : AnalyzerObj Res JSON)
    (data : FetchResult JSON) simple (agg : option string) w :
  events (analyzer_loop py_str env fuel an data simple agg true w) = [].
Proof.
  revert w. induction fuel as [|n IH]; intros w; cbn; unfold bind; cbn.
  - by destruct (finished w || ext_finished env (clock w)).
  - destruct (finished w || ext_finished env (clock w)); cbn; [done|].
    rewrite andb_false_r; cbn.
    match goal with |- context [analyzer_loop _ _ n _ _ _ _ _ ?w1] =>
      specialize (IH w1);
      destruct (analyzer_loop py_str env n an data simple agg true w1)
        as [evs w2 [[]| |]]
    end; cbn in *; by subst.
Qed.

(** The shapes of one iteration entered with the local flag unset. *)
Lemma analyzer_loop_step n (an : AnalyzerObj Res JSON)
    (data : FetchResult JSON) simple (agg : option string) w :
  let evs := events (analyzer_loop py_str env (S n) an data simple agg
                       false w) in
  evs = [] \/
  exists res c reply,
    let analysed := EvAnalyze data agg simple (res, c) in
    let sent := EvSendMessage [aggregator_id env] intermediate_results
                  [("result", py_str res)] None reply in
    (c = true /\ evs = [analysed; sent]) \/
    (c = false /\
     ((exists agg' w1,
         evs = analysed :: sent
               :: events (analyzer_loop py_str env n an data simple agg'
                            false w1)) \/
      (exists d,
         evs = [analysed; sent;
                EvAwaitResponses [aggregator_id env] aggregated_results
                                 (Some 300) d]) \/
      (exists d agg' w1,
         evs = analysed :: sent
               :: EvAwaitResponses [aggregator_id env] aggregated_results
                                   (Some 300) d
               :: events (analyzer_loop py_str env n an data simple agg'
                            false w1)))).
Proof.
  cbn. unfold bind; cbn.
  destruct (finished w || ext_finished env (clock w)) eqn:Ec; cbn;
    [by left|right].
  destruct (analyze_method an _ data agg simple) as [res c] eqn:Ea.
  cbn. exists res, c.
  exists (send_reply env (S (S (clock w))) [aggregator_id env]
            intermediate_results [("result", py_str res)] None).
  destruct c; cbn.
  - left. split; [done|]. rewrite andb_false_r; cbn.
    match goal with |- context [analyzer_loop _ _ n _ _ _ ?a true ?w1] =>
      pose proof (analyzer_loop_locally_converged n an data simple a w1) as Hq;
      destruct (analyzer_loop py_str env n an data simple a true w1)
        as [evs w2 [[]| |]]
    end; cbn in *; by subst.
  - right. split; [done|]. rewrite andb_true_r.
    destruct (ext_finished env (S (S (S (clock w))))) eqn:Ec2; cbn.
    + left.
      match goal with |- context [analyzer_loop _ _ n _ _ _ ?a false ?w1] =>
        exists a, w1;
        destruct (analyzer_loop py_str env n an data simple a false w1)
          as [evs w2 [[]| |]]
      end; cbn; by rewrite ?app_nil_r.
    + destruct (aggregated_result_of _ _) as [e|r] eqn:Er; cbn.
      * right; left. eexists. reflexivity.
      * right; right.
        match goal with |- context [analyzer_loop _ _ n _ _ _ ?a false ?w1] =>
          eexists _, a, w1;
          destruct (analyzer_loop py_str env n an data simple a false w1)
            as [evs w2 [[]| |]]
        end; cbn; by rewrite ?app_nil_r.
Qed.

(** C5. Once the analysis strategy has reported local convergence, the
    analyzer's loop calls no collaborator any more: the only event
    after that call is the [intermediate_results] message of the same
    iteration, so there is no further [analyze], no further
    [intermediate_results] and no wait for [aggregated_results]; an
    iteration entered with the local flag set records nothing at all. *)
Theorem local_convergence_silences_analyzer (an : AnalyzerObj Res JSON)
    (data : FetchResult JSON) simple fuel (agg : option string)
    (conv : bool) w :
  (conv = true ->
   events (analyzer_loop py_str env fuel an data simple agg conv w) = []) /\
  (forall pre d a s res post,
     events (analyzer_loop py_str env fuel an data simple agg conv w)
     = pre ++ EvAnalyze d a s (res, true) :: post ->
     exists reply,
       post = [EvSendMessage [aggregator_id env] intermediate_results
                 [("result", py_str res)] None reply]).
Proof.
  split.
  { intros ->. apply analyzer_loop_locally_converged. }
  revert agg conv w. induction fuel as [|n IH]; intros agg conv w.
  - intros pre d a s res post H. exfalso. revert H. cbn. unfold bind; cbn.
    destruct (finished w || ext_finished env (clock w)); cbn;
      intros H; symmetry in H; by apply app_cons_not_nil in H.
  - destruct conv.
    { intros pre d a s res post H.
      rewrite analyzer_loop_locally_converged in H.
      symmetry in H. by apply app_cons_not_nil in H. }
    intros pre d a s res post H.
    destruct (analyzer_loop_step n an data simple agg w)
      as [E|(res0 & c & reply & [[-> E]|[-> E]])]; cbn zeta in E.
    + rewrite E in H. symmetry in H. by apply app_cons_not_nil in H.
    + rewrite E in H. symmetry in H.
      apply app_cons_inv in H as [(Hp & Hx & Hpost)|(pre1 & Hp & H)].
      { injection Hx as -> -> -> ->. subst. by eexists. }
      apply app_cons_inv in H as [(_ & Hx & _)|(pre2 & _ & H)]; [done|].
      by apply app_cons_not_nil in H.
    + destruct E as [(agg' & w1 & E)|[(d0 & E)|(d0 & agg' & w1 & E)]];
        rewrite E in H; symmetry in H.
      * apply app_cons_inv in H as [(_ & Hx & _)|(pre1 & _ & H)]; [done|].
        apply app_cons_inv in H as [(_ & Hx & _)|(pre2 & _ & H)]; [done|].
        symmetry in H. by apply IH in H.
      * apply app_cons_inv in H as [(_ & Hx & _)|(pre1 & _ & H)]; [done|].
        apply app_cons_inv in H as [(_ & Hx & _)|(pre2 & _ & H)]; [done|].
        apply app_cons_inv in H as [(_ & Hx & _)|(pre3 & _ & H)]; [done|].
        by apply app_cons_not_nil in H.
      * apply app_cons_inv in H as [(_ & Hx & _)|(pre1 & _ & H)]; [done|].
        apply app_cons_inv in H as [(_ & Hx & _)|(pre2 & _ & H)]; [done|].
        apply app_cons_inv in H as [(_ & Hx & _)|(pre3 & _ & H)]; [done|].
        symmetry in H. by apply IH in H.
Qed.

(** ** Round coordinator, aggregator side *)

Lemma truthy_all_present (d : ResponseDict) :
  forallb truthy (dict_values d) = true <-> all_present d.
Proof.
  unfold all_present, dict_values. induction d as [|[p0 v0] d IH]; cbn.
  - split; [|done]. intros _ p v H. by apply elem_of_nil in H.
  - rewrite andb_true_iff, IH. split.
    + intros [Hv Hd] p v H. apply elem_of_cons in H as [H|H].
      * injection H as -> ->. destruct v0 as [[|m ms]|]; try done.
        by exists m, ms.
      * by apply (Hd p).
    + intros H. split.
      * destruct (H p0 v0) as (m & ms & ->); [|done].
        apply elem_of_cons. by left.
      * intros p v Hpv. apply (H p). apply elem_of_cons. by right.
Qed.

(** With the flag set, the loop returns at its first poll. *)
Lemma aggregator_loop_finished fuel (ag : AggregatorObj Res) simple w :
  finished w = true ->
  aggregator_loop py_str env fuel ag simple w
  = Run [] (mkWorld true (S (clock w)) (stdout w)) (Ret tt).
Proof.
  intros Hf. destruct fuel; cbn; unfold bind; cbn; by rewrite Hf.
Qed.

(** Every run of the loop is a sequence of rounds. *)
Lemma aggregator_loop_trace fuel (ag : AggregatorObj Res) simple w :
  agg_trace py_str ag simple
    (events (aggregator_loop py_str env fuel ag simple w))
    (result (aggregator_loop py_str env fuel ag simple w))
    (finished (world (aggregator_loop py_str env fuel ag simple w))).
Proof.
  revert w. induction fuel as [|n IH]; intros w; cbn; unfold bind; cbn.
  - destruct (finished w || ext_finished env (clock w)); cbn; constructor.
  - destruct (finished w || ext_finished env (clock w)) eqn:Ec; cbn;
      [constructor|].
    set (d := await_reply env (S (clock w)) (partner_node_ids ag)
                intermediate_results None).
    destruct (forallb truthy (dict_values d)) eqn:Et; cbn.
    + destruct (node_results_of (dict_values d)) as [e|rs] eqn:En; cbn.
      { by apply at_malformed. }
      destruct (aggregate_method ag _ rs simple) as [res c] eqn:Ea; cbn.
      destruct c; cbn.
      * unfold bind, submit_final_result; cbn.
        destruct (submit_reply env _ _) as [e|ack] eqn:Es; cbn.
        { by apply at_submit_failed. }
        rewrite aggregator_loop_finished by done. cbn.
        by apply at_final.
      * match goal with |- context [aggregator_loop _ _ n _ _ ?w1] =>
          specialize (IH w1);
          destruct (aggregator_loop py_str env n ag simple w1)
            as [evs w2 out]
        end. cbn in *.
        by apply at_broadcast.
    + match goal with |- context [aggregator_loop _ _ n _ _ ?w1] =>
        specialize (IH w1);
        destruct (aggregator_loop py_str env n ag simple w1)
          as [evs w2 out]
      end. cbn in *.
      by apply at_incomplete.
Qed.

(** The readiness handshake makes no call of a round. *)
Lemma analyzer_ready_loop_quiet fuel (received : list NodeID) w :
  Forall (fun e => ~ round_event e)
    (events (analyzer_ready_loop (Res:=Res) env fuel received w)).
Proof.
  revert received w. induction fuel as [|n IH]; intros received w; cbn.
  - case_bool_decide; cbn; constructor.
  - case_bool_decide; cbn; [constructor|].
    unfold bind; cbn.
    destruct (send_reply _ _ _ _ _ _) as [rl nl]; cbn.
    specialize (IH rl (tick w)).
    destruct (analyzer_ready_loop env n rl (tick w)) as [evs w2 [l| |]];
      cbn in *; repeat (apply Forall_cons; split; [cbn; tauto|]); done.
Qed.

Lemma aggregator_ready_loop_quiet fuel (ids : list NodeID)
    (latest num : Z) w :
  Forall (fun e => ~ round_event e)
    (events (aggregator_ready_loop (Res:=Res) env fuel ids latest num w)).
Proof.
  revert latest num w.
  induction fuel as [|n IH]; intros latest num w; cbn; [constructor|].
  unfold bind; cbn.
  destruct (latest <? num)%Z; cbn;
    destruct (send_reply _ _ _ _ _ _) as [rl nl]; cbn;
    destruct (_ =? _)%Z; cbn;
    try (repeat (apply Forall_cons; split; [cbn; tauto|]); by constructor).
  all: match goal with |- context [aggregator_ready_loop ?e ?k ?i ?l ?m ?w1] =>
         specialize (IH l m w1);
         destruct (aggregator_ready_loop e k i l m w1) as [evs w2 [[]| |]]
       end; cbn in *; repeat (apply Forall_cons; split; [cbn; tauto|]); done.
Qed.

Lemma wait_until_partners_ready_quiet fuel w :
  Forall (fun e => ~ round_event e)
    (events (_wait_until_partners_ready (Res:=Res) env fuel w)).
Proof.
  unfold _wait_until_partners_ready. destruct (is_analyzer env).
  - unfold bind at 1. cbn. unfold bind at 1.
    match goal with |- context [analyzer_ready_loop _ _ _ ?w1] =>
      pose proof (analyzer_ready_loop_quiet fuel [] w1) as Hq;
      destruct (analyzer_ready_loop env fuel [] w1) as [evs w2 [l| |]]
    end; cbn in *; try done.
    unfold bind; cbn. case_bool_decide; cbn; by rewrite ?app_nil_r.
  - unfold bind.
    pose proof (aggregator_ready_loop_quiet fuel (participant_ids env)
                  (-1) 0 w) as Hq.
    destruct (aggregator_ready_loop env fuel (participant_ids env) (-1) 0 w)
      as [evs w2 [[]| |]]; cbn in *; by rewrite ?app_nil_r.
Qed.

(** A run of [start_aggregator] either stops before its round loop,
    having made no call of a round, or consists of the handshake, the
    loop and the finalisation hook. *)
Lemma start_aggregator_shape (aggregator : StrategyArg (AggregatorObj Res))
    simple fuel w :
  let r := start_aggregator py_str env aggregator simple fuel w in
  (Forall (fun e => ~ round_event e) (events r) /\ result r <> Ret tt) \/
  exists prefix ag w1,
    let l := aggregator_loop py_str env fuel ag simple w1 in
    Forall (fun e => ~ round_event e) prefix /\
    events r = prefix ++ events l ++
               match result l with
               | Ret _ => [EvNodeFinished KAggregator]
               | _ => []
               end /\
    result r = result l /\
    finished (world r) = finished (world l).
Proof.
  cbn zeta. unfold start_aggregator.
  destruct (is_aggregator env); [|left; cbn; split; [constructor|done]].
  destruct aggregator as [o|init| |]; cbn;
    try (left; cbn; split; [constructor|done]).
  - unfold bind; cbn.
    pose proof (wait_until_partners_ready_quiet fuel w) as Hq.
    destruct (_wait_until_partners_ready env fuel w) as [pevs w1 [[]|e|]];
      cbn in *; try (left; by rewrite ?app_nil_r).
    right. exists pevs, o, w1. split; [done|].
    destruct (aggregator_loop py_str env fuel o simple w1)
      as [levs w2 [[]|e|]]; cbn; by rewrite ?app_nil_r.
  - unfold bind; cbn.
    pose proof (wait_until_partners_ready_quiet fuel w) as Hq.
    destruct (_wait_until_partners_ready env fuel w) as [pevs w1 [[]|e|]];
      cbn in *;
      try (left; split; [apply Forall_cons; split; [cbn; tauto|by rewrite ?app_nil_r]|done]).
    right. exists (EvInstantiate KAggregator :: pevs), init, w1.
    split; [apply Forall_cons; split; [cbn; tauto|done]|].
    destruct (aggregator_loop py_str env fuel init simple w1)
      as [levs w2 [[]|e|]]; cbn; by rewrite ?app_nil_r.
Qed.

Lemma signals_app (l1 l2 : list (Event Res JSON)) :
  signals (l1 ++ l2) = signals l1 + signals l2.
Proof.
  induction l1 as [|e l1 IH]; [done|]. destruct e; cbn; by rewrite ?IH.
Qed.

Lemma signals_quiet (l : list (Event Res JSON)) :
  Forall (fun e => ~ round_event e) l -> signals l = 0.
Proof.
  induction 1 as [|e l He _ IH]; [done|]. destruct e; cbn in *; tauto.
Qed.

(** An event found in [prefix ++ mid ++ suffix] that can be in neither
    [prefix] nor [suffix] sits in [mid]. *)
Lemma locate_in_middle {A} (P : A -> Prop) (prefix mid suffix pre : list A)
    (x : A) (post : list A) :
  Forall P prefix -> Forall P suffix -> ~ P x ->
  prefix ++ mid ++ suffix = pre ++ x :: post ->
  exists pre0 post0,
    mid = pre0 ++ x :: post0 /\ pre = prefix ++ pre0 /\ post = post0 ++ suffix.
Proof.
  intros Hp Hs Hx. revert pre.
  induction Hp as [|p prefix Hp0 _ IH]; intros pre H; cbn in H.
  - revert pre H. induction mid as [|m mid IHm]; intros pre H; cbn in H.
    + exfalso. apply Hx. rewrite Forall_forall in Hs. apply Hs.
      rewrite H. apply elem_of_app. right. apply elem_of_cons. by left.
    + symmetry in H.
      apply app_cons_inv in H as [(-> & -> & ->)|(pre1 & -> & H)].
      * by exists [], mid.
      * symmetry in H. destruct (IHm pre1 H) as (pre0 & post0 & -> & E1 & E2).
        cbn in E1. subst. by exists (m :: pre0), post0.
  - symmetry in H.
    apply app_cons_inv in H as [(-> & -> & ->)|(pre1 & -> & H)]; [done|].
    symmetry in H. destruct (IH pre1 H) as (pre0 & post0 & -> & -> & ->).
    by exists pre0, post0.
Qed.

(** In a sequence of rounds, the strategy is called right after a wait
    whose reply holds a non-empty message list for every entry. *)
Lemma agg_trace_aggregate (ag : AggregatorObj Res) simple evs out fin :
  agg_trace py_str ag simple evs out fin ->
  forall pre rs s reply post,
    evs = pre ++ EvAggregate rs s reply :: post ->
    exists pre' d,
      pre = pre' ++ [awaited ag d] /\
      all_present d /\
      node_results_of (dict_values d) = inr rs.
Proof.
  induction 1 as [| |d evs out fin Hd _ IH|d e Hd He
                  |d rs0 res0 reply0 evs out fin Hd Hrs _ IH
                  |d rs0 res0 e Hd Hrs|d rs0 res0 ack Hd Hrs];
    intros pre rs s reply post H; symmetry in H.
  - by apply app_cons_not_nil in H.
  - by apply app_cons_not_nil in H.
  - apply app_cons_inv in H as [(_ & Hx & _)|(pre1 & -> & H)]; [done|].
    symmetry in H. destruct (IH _ _ _ _ _ H) as (pre' & d' & -> & ?).
    by exists (awaited ag d :: pre'), d'.
  - apply app_cons_inv in H as [(_ & Hx & _)|(pre1 & -> & H)]; [done|].
    by apply app_cons_not_nil in H.
  - apply app_cons_inv in H as [(_ & Hx & _)|(pre1 & -> & H)]; [done|].
    apply app_cons_inv in H as [(-> & Hx & _)|(pre2 & -> & H)].
    { injection Hx as -> -> ->. exists [], d.
      by rewrite <- truthy_all_present. }
    apply app_cons_inv in H as [(_ & Hx & _)|(pre3 & -> & H)]; [done|].
    symmetry in H. destruct (IH _ _ _ _ _ H) as (pre' & d' & -> & ?).
    by exists (awaited ag d :: EvAggregate rs0 simple (res0, false)
               :: EvSendMessage (partner_node_ids ag) aggregated_results
                    [("result", py_str res0)] None reply0 :: pre'), d'.
  - apply app_cons_inv in H as [(_ & Hx & _)|(pre1 & -> & H)]; [done|].
    apply app_cons_inv in H as [(-> & Hx & _)|(pre2 & -> & H)].
    { injection Hx as -> -> ->. exists [], d.
      by rewrite <- truthy_all_present. }
    apply app_cons_inv in H as [(_ & Hx & _)|(pre3 & -> & H)]; [done|].
    by apply app_cons_not_nil in H.
  - apply app_cons_inv in H as [(_ & Hx & _)|(pre1 & -> & H)]; [done|].
    apply app_cons_inv in H as [(-> & Hx & _)|(pre2 & -> & H)].
    { injection Hx as -> -> ->. exists [], d.
      by rewrite <- truthy_all_present. }
    apply app_cons_inv in H as [(_ & Hx & _)|(pre3 & -> & H)]; [done|].
    apply app_cons_inv in H as [(_ & Hx & _)|(pre4 & -> & H)]; [done|].
    by apply app_cons_not_nil in H.
Qed.

(** [analysis_finished] is the last call of the loop, made right after
    a converged aggregation and the successful submission of its
    result. *)
Lemma agg_trace_signal (ag : AggregatorObj Res) simple evs out fin :
  agg_trace py_str ag simple evs out fin ->
  forall pre post,
    evs = pre ++ EvAnalysisFinished :: post ->
    post = [] /\ out = Ret tt /\ fin = true /\
    exists pre' rs res ack,
      pre = pre' ++ [EvAggregate rs simple (res, true);
                     EvSubmitFinalResult (final_payload py_str res)
                                         (inr ack)].
Proof.
  induction 1 as [| |d evs out fin Hd _ IH|d e Hd He
                  |d rs0 res0 reply0 evs out fin Hd Hrs _ IH
                  |d rs0 res0 e Hd Hrs|d rs0 res0 ack Hd Hrs];
    intros pre post H; symmetry in H.
  - by apply app_cons_not_nil in H.
  - by apply app_cons_not_nil in H.
  - apply app_cons_inv in H as [(_ & Hx & _)|(pre1 & -> & H)]; [done|].
    symmetry in H.
    destruct (IH _ _ H) as (? & ? & ? & pre' & rs & res & ack & ->).
    repeat split; try done. by exists (awaited ag d :: pre'), rs, res, ack.
  - apply app_cons_inv in H as [(_ & Hx & _)|(pre1 & -> & H)]; [done|].
    by apply app_cons_not_nil in H.
  - apply app_cons_inv in H as [(_ & Hx & _)|(pre1 & -> & H)]; [done|].
    apply app_cons_inv in H as [(_ & Hx & _)|(pre2 & -> & H)]; [done|].
    apply app_cons_inv in H as [(_ & Hx & _)|(pre3 & -> & H)]; [done|].
    symmetry in H.
    destruct (IH _ _ H) as (? & ? & ? & pre' & rs & res & ack & ->).
    repeat split; try done.
    by exists (awaited ag d :: EvAggregate rs0 simple (res0, false)
               :: EvSendMessage (partner_node_ids ag) aggregated_results
                    [("result", py_str res0)] None reply0 :: pre'),
              rs, res, ack.
  - apply app_cons_inv in H as [(_ & Hx & _)|(pre1 & -> & H)]; [done|].
    apply app_cons_inv in H as [(_ & Hx & _)|(pre2 & -> & H)]; [done|].
    apply app_cons_inv in H as [(_ & Hx & _)|(pre3 & -> & H)]; [done|].
    by apply app_cons_not_nil in H.
  - apply app_cons_inv in H as [(_ & Hx & _)|(pre1 & -> & H)]; [done|].
    apply app_cons_inv in H as [(_ & Hx & _)|(pre2 & -> & H)]; [done|].
    apply app_cons_inv in H as [(_ & Hx & _)|(pre3 & -> & H)]; [done|].
    apply app_cons_inv in H as [(-> & _ & <-)|(pre4 & -> & H)].
    { repeat split; try done. by exists [awaited ag d], rs0, res0, ack. }
    by apply app_cons_not_nil in H.
Qed.

Lemma agg_trace_signals (ag : AggregatorObj Res) simple evs out fin :
  agg_trace py_str ag simple evs out fin -> signals evs <= 1.
Proof. induction 1; cbn; lia. Qed.

(** A submission that raises ends the loop with that exception, the
    flag unset and no [analysis_finished]. *)
Lemma agg_trace_submit_raises (ag : AggregatorObj Res) simple evs out fin :
  agg_trace py_str ag simple evs out fin ->
  forall payload e,
    EvSubmitFinalResult payload (inl e) ∈ evs ->
    out = Raise e /\ fin = false /\ signals evs = 0.
Proof.
  induction 1 as [| |d evs out fin Hd _ IH|d e Hd He
                  |d rs0 res0 reply0 evs out fin Hd Hrs _ IH
                  |d rs0 res0 e Hd Hrs|d rs0 res0 ack Hd Hrs];
    intros payload e0 Hin;
    repeat (apply elem_of_cons in Hin as [Hin|Hin]; [try done|]);
    try (by apply elem_of_nil in Hin).
  - by apply IH in Hin.
  - by apply IH in Hin.
  - injection Hin as _ <-. done.
Qed.

Lemma finalisation_quiet out :
  Forall (fun e : Event Res JSON => ~ round_event e)
    match out with
    | Ret _ => [EvNodeFinished KAggregator]
    | _ => []
    end.
Proof.
  destruct out; [|constructor|constructor].
  apply Forall_cons. split; [cbn; tauto|constructor].
Qed.

Lemma dict_get_elem_of {V} (d : dict string V) (k : string) (v : V) :
  dict_get d k = Some v -> (k, v) ∈ d.
Proof.
  induction d as [|[k0 v0] d IH]; cbn; [done|].
  destruct (String.eqb k0 k) eqn:Ek.
  - apply String.eqb_eq in Ek as ->. intros H. injection H as ->.
    apply elem_of_cons. by left.
  - intros H. apply elem_of_cons. right. by apply IH.
Qed.

(** Every wait recorded by the loop carries the scripted reply. *)
Lemma aggregator_loop_scripted fuel (ag : AggregatorObj Res) simple w :
  Forall (scripted_wait env)
    (events (aggregator_loop py_str env fuel ag simple w)).
Proof.
  revert w. induction fuel as [|n IH]; intros w; cbn; unfold bind; cbn.
  - destruct (finished w || ext_finished env (clock w)); cbn; constructor.
  - destruct (finished w || ext_finished env (clock w)) eqn:Ec; cbn;
      [constructor|].
    set (d := await_reply env (S (clock w)) (partner_node_ids ag)
                intermediate_results None).
    assert (Hd : scripted_wait (Res:=Res) env
              (EvAwaitResponses (partner_node_ids ag) intermediate_results
                 None d)) by (by exists (S (clock w))).
    destruct (forallb truthy (dict_values d)) eqn:Et; cbn.
    + destruct (node_results_of (dict_values d)) as [e|rs] eqn:En; cbn;
        [by repeat constructor|].
      destruct (aggregate_method ag _ rs simple) as [res c] eqn:Ea; cbn.
      destruct c; cbn.
      * unfold bind, submit_final_result; cbn.
        destruct (submit_reply env _ _) as [e|ack] eqn:Es; cbn;
          [by repeat constructor|].
        rewrite aggregator_loop_finished by done. cbn.
        by repeat constructor.
      * match goal with |- context [aggregator_loop _ _ n _ _ ?w1] =>
          specialize (IH w1);
          destruct (aggregator_loop py_str env n ag simple w1)
            as [evs w2 out]
        end. cbn in *.
        by repeat (apply Forall_cons; split; [done|]).
    + match goal with |- context [aggregator_loop _ _ n _ _ ?w1] =>
        specialize (IH w1);
        destruct (aggregator_loop py_str env n ag simple w1)
          as [evs w2 out]
      end. cbn in *.
      by apply Forall_cons.
Qed.

(** [start_aggregator] on the strategy object [ag], given as instance or
    as class: the run stops before the round loop, or runs the loop on
    [ag]. *)
Lemma start_aggregator_rounds (ag : AggregatorObj Res)
    (aggregator : StrategyArg (AggregatorObj Res)) simple fuel w :
  aggregator = AnInstance ag \/ aggregator = ASubclass ag ->
  let r := start_aggregator py_str env aggregator simple fuel w in
  Forall (fun e => ~ round_event e) (events r) \/
  exists prefix w1,
    let l := aggregator_loop py_str env fuel ag simple w1 in
    Forall (fun e => ~ round_event e) prefix /\
    events r = prefix ++ events l ++
               match result l with
               | Ret _ => [EvNodeFinished KAggregator]
               | _ => []
               end.
Proof.
  intros Harg. cbn zeta. unfold start_aggregator.
  destruct (is_aggregator env); [|left; cbn; constructor].
  destruct Harg as [-> | ->]; cbn.
  - unfold bind; cbn.
    pose proof (wait_until_partners_ready_quiet fuel w) as Hq.
    destruct (_wait_until_partners_ready env fuel w) as [pevs w1 [[]|e|]];
      cbn in *; try (left; by rewrite ?app_nil_r).
    right. exists pevs, w1. split; [done|].
    destruct (aggregator_loop py_str env fuel ag simple w1)
      as [levs w2 [[]|e|]]; cbn; by rewrite ?app_nil_r.
  - unfold bind; cbn.
    pose proof (wait_until_partners_ready_quiet fuel w) as Hq.
    destruct (_wait_until_partners_ready env fuel w) as [pevs w1 [[]|e|]];
      cbn in *;
      try (left; apply Forall_cons; split; [cbn; tauto|];
           by rewrite ?app_nil_r).
    right. exists (EvInstantiate KAggregator :: pevs), w1.
    split; [apply Forall_cons; split; [cbn; tauto|done]|].
    destruct (aggregator_loop py_str env fuel ag simple w1)
      as [levs w2 [[]|e|]]; cbn; by rewrite ?app_nil_r.
Qed.

(** C1. Round completeness barrier.  Let the aggregator run on the
    strategy object [ag], and let the collaborator keep its contract
    that the reply to a wait has an entry for every partner asked for.
    Then each call of the aggregation strategy comes right after a wait
    for [intermediate_results] of the partners of [ag] in whose reply
    every partner of [ag] has a non-empty message list, and is made on
    the latest result of each; and when some partner's entry is [None]
    or empty, the round records nothing but the wait and the loop goes
    on to its next iteration, where it polls the flag and waits again,
    instead of aggregating a partial set. *)
Theorem round_completeness_barrier (ag : AggregatorObj Res)
    (aggregator : StrategyArg (AggregatorObj Res)) simple fuel w :
  aggregator = AnInstance ag \/ aggregator = ASubclass ag ->
  reply_covers_partners env ag ->
  (forall pre rs s reply post,
     events (start_aggregator py_str env aggregator simple fuel w)
     = pre ++ EvAggregate rs s reply :: post ->
     exists pre' d,
       pre = pre' ++ [EvAwaitResponses (partner_node_ids ag)
                        intermediate_results None d] /\
       (forall p, p ∈ partner_node_ids ag ->
          exists m ms, dict_get d p = Some (Some (m :: ms))) /\
       all_present d /\
       node_results_of (dict_values d) = inr rs) /\
  (forall n w0,
     let d := await_reply env (S (clock w0)) (partner_node_ids ag)
                intermediate_results None in
     finished w0 || ext_finished env (clock w0) = false ->
     (exists p, p ∈ partner_node_ids ag /\
                (dict_get d p = Some None \/ dict_get d p = Some (Some []))) ->
     exists w1,
       finished w1 = false /\
       events (aggregator_loop py_str env (S n) ag simple w0)
       = awaited ag d :: events (aggregator_loop py_str env n ag simple w1) /\
       result (aggregator_loop py_str env (S n) ag simple w0)
       = result (aggregator_loop py_str env n ag simple w1)).
Proof.
  intros Harg Hcontract. split.
  - intros pre rs s reply post H.
    destruct (start_aggregator_rounds ag aggregator simple fuel w Harg)
      as [Hq|(prefix & w1 & Hq & Hev)]; cbn zeta in *.
    + exfalso. rewrite Forall_forall in Hq.
      apply (Hq (EvAggregate rs s reply)); [|exact I].
      rewrite H. apply elem_of_app. right. apply elem_of_cons. by left.
    + rewrite Hev in H.
      apply (locate_in_middle (fun e => ~ round_event e)) in H
        as (pre0 & post0 & Hmid & -> & ->); try done.
      * destruct (agg_trace_aggregate ag simple _ _ _
                    (aggregator_loop_trace fuel ag simple w1)
                    _ _ _ _ _ Hmid) as (pre' & d & -> & Hd & Hrs).
        exists (prefix ++ pre'), d. split; [by rewrite app_assoc|].
        split; [|done].
        intros p Hp.
        pose proof (aggregator_loop_scripted fuel ag simple w1) as Hs.
        rewrite Hmid, Forall_forall in Hs.
        destruct (Hs (awaited ag d)) as [t ->].
        { apply elem_of_app. left. apply elem_of_app. right.
          apply elem_of_cons. by left. }
        destruct (Hcontract t p Hp) as [v Hv].
        destruct (Hd p v (dict_get_elem_of _ _ _ Hv)) as (m & ms & ->).
        by exists m, ms.
      * apply finalisation_quiet.
      * cbn. tauto.
  - intros n w0 d Hc (p & Hp & Hv).
    assert (Ht : forallb truthy (dict_values d) = false).
    { destruct (forallb truthy (dict_values d)) eqn:Et; [|done].
      apply truthy_all_present in Et.
      destruct Hv as [Hv|Hv]; apply dict_get_elem_of in Hv;
        by destruct (Et _ _ Hv) as (m & ms & ?). }
    cbn. unfold bind; cbn. rewrite Hc; cbn. fold d. rewrite Ht; cbn.
    eexists. split; [|split].
    2:{ match goal with |- context [aggregator_loop _ _ n _ _ ?w1] =>
          destruct (aggregator_loop py_str env n ag simple w1)
            as [evs w2 [[]| |]] eqn:El
        end; cbn; rewrite ?El; reflexivity. }
    + reflexivity.
    + match goal with |- context [aggregator_loop _ _ n _ _ ?w1] =>
        by destruct (aggregator_loop py_str env n ag simple w1)
          as [evs w2 [[]| |]]
      end.
Qed.

(** C2. In every run of the aggregator, [analysis_finished] is called
    at most once; a call comes right after a converged aggregation and
    the successful submission of its serialised result, and is followed
    only by the finalisation hook; when the submission raises, the run
    ends with that exception, the flag unset and no call of
    [analysis_finished]. *)
Theorem completion_signalled_once_after_submission
    (aggregator : StrategyArg (AggregatorObj Res)) simple fuel w :
  let r := start_aggregator py_str env aggregator simple fuel w in
  signals (events r) <= 1 /\
  (forall pre post,
     events r = pre ++ EvAnalysisFinished :: post ->
     (exists pre' rs res ack,
        pre = pre' ++ [EvAggregate rs simple (res, true);
                       EvSubmitFinalResult (final_payload py_str res)
                                           (inr ack)]) /\
     post = [EvNodeFinished KAggregator] /\
     result r = Ret tt /\
     finished (world r) = true) /\
  (forall payload e,
     EvSubmitFinalResult payload (inl e) ∈ events r ->
     result r = Raise e /\
     signals (events r) = 0 /\
     finished (world r) = false).
Proof.
  cbn zeta.
  destruct (start_aggregator_shape aggregator simple fuel w)
    as [[Hq Hr]|(prefix & ag & w1 & Hq & Hev & Hres & Hfin)]; cbn zeta in *.
  - split; [rewrite signals_quiet by done; lia|]. split.
    + intros pre post H. exfalso. rewrite Forall_forall in Hq.
      apply (Hq EvAnalysisFinished); [|exact I].
      rewrite H. apply elem_of_app. right. apply elem_of_cons. by left.
    + intros payload e H. exfalso. rewrite Forall_forall in Hq.
      by apply (Hq _ H).
  - pose proof (aggregator_loop_trace fuel ag simple w1) as Htr.
    assert (Hsuffix : Forall (fun e : Event Res JSON => ~ round_event e)
              match result (aggregator_loop py_str env fuel ag simple w1) with
              | Ret _ => [EvNodeFinished KAggregator]
              | _ => []
              end).
    { apply finalisation_quiet. }
    rewrite Hev, Hres, Hfin. split; [|split].
    + rewrite !signals_app, (signals_quiet _ Hq), (signals_quiet _ Hsuffix).
      pose proof (agg_trace_signals _ _ _ _ _ Htr). lia.
    + intros pre post H.
      apply (locate_in_middle (fun e => ~ round_event e)) in H
        as (pre0 & post0 & Hmid & -> & ->); try done; [|cbn; tauto].
      destruct (agg_trace_signal _ _ _ _ _ Htr _ _ Hmid)
        as (-> & Hout & Hf & pre' & rs & res & ack & ->).
      rewrite Hout. repeat split; try done.
      exists (prefix ++ pre'), rs, res, ack. by rewrite app_assoc.
    + intros payload e H.
      apply elem_of_app in H as [H|H].
      { exfalso. rewrite Forall_forall in Hq. by apply (Hq _ H). }
      apply elem_of_app in H as [H|H].
      2:{ exfalso. rewrite Forall_forall in Hsuffix.
          by apply (Hsuffix _ H). }
      destruct (agg_trace_submit_raises _ _ _ _ _ Htr _ _ H)
        as (Hout & Hf & Hs).
      rewrite Hout in *. repeat split; try done.
      rewrite !signals_app, (signals_quiet _ Hq), Hs. done.
Qed.

End Properties.

(** * The properties on the example deployments *)

Lemma role_mismatch_fails_before_any_effect_witness :
  (role (quiet_env "default") <> "aggregator" /\
   start_aggregator id (quiet_env "default") (ASubclass sum_strategy)
                    true 5 w0
   = Run [] w0 (Raise (BrokenPipeError IS_ANALYZER))) /\
  (role (quiet_env "aggregator") <> "default" /\
   start_analyzer id (quiet_env "aggregator") (ASubclass count_strategy)
                  (QStr "Patient") true 5 w0
   = Run [] w0 (Raise (BrokenPipeError IS_AGGREGATOR))).
Proof.
  split; (split; [discriminate|]).
  - apply (proj1 (role_mismatch_fails_before_any_effect id
             (quiet_env "default") (ASubclass sum_strategy)
             (ASubclass count_strategy) (QStr "Patient") true 5 w0)).
    discriminate.
  - apply (proj2 (role_mismatch_fails_before_any_effect id
             (quiet_env "aggregator") (ASubclass sum_strategy)
             (ASubclass count_strategy) (QStr "Patient") true 5 w0)).
    discriminate.
Defined.

Lemma unknown_role_rejected_by_both_entrypoints_witness :
  role (quiet_env "Aggregator") <> "aggregator" /\
  role (quiet_env "Aggregator") <> "default" /\
  result (start_aggregator id (quiet_env "Aggregator")
            (AnInstance sum_strategy) true 5 w0)
  = Raise (BrokenPipeError IS_ANALYZER) /\
  result (start_analyzer id (quiet_env "Aggregator")
            (AnInstance count_strategy) (QStr "Patient") true 5 w0)
  = Raise (BrokenPipeError IS_AGGREGATOR).
Proof.
  assert (H1 : role (quiet_env "Aggregator") <> "aggregator") by discriminate.
  assert (H2 : role (quiet_env "Aggregator") <> "default") by discriminate.
  destruct (unknown_role_rejected_by_both_entrypoints id
              (quiet_env "Aggregator") (AnInstance sum_strategy)
              (AnInstance count_strategy) (QStr "Patient") true 5 w0 H1 H2)
    as (_ & _ & E1 & E2).
  repeat split; assumption.
Defined.

Lemma aggregator_handshake_needs_one_full_attempt_witness :
  role (quiet_env "aggregator") <> "default" /\
  result (_wait_until_partners_ready (Res:=string) (quiet_env "aggregator")
            1 w0) = Ret tt.
Proof.
  assert (H : role (quiet_env "aggregator") <> "default") by discriminate.
  split; [exact H|].
  apply (proj2 (aggregator_handshake_needs_one_full_attempt
                  (quiet_env "aggregator") 1 w0 H)).
  exists 0. split; [lia|reflexivity].
Defined.

(** C3, as stated, fails: in [alternating_env] each analyzer has
    answered one of the first two attempts, yet the handshake never
    returns, because no single attempt is answered by both. *)
Lemma earlier_responders_are_not_accumulated :
  (forall p, p ∈ participant_ids alternating_env ->
     exists k, k < 2 /\
       p ∈ (ready_attempt alternating_env
              (participant_ids alternating_env) k).1) /\
  (forall fuel,
     result (_wait_until_partners_ready (Res:=string) alternating_env
               fuel w0) = OutOfFuel).
Proof.
  split.
  - intros p Hp. cbn in Hp.
    apply elem_of_cons in Hp as [->|Hp]; [exists 0; split; [lia|]; cbn; set_solver|].
    apply elem_of_cons in Hp as [->|Hp]; [exists 1; split; [lia|]; cbn; set_solver|].
    by apply elem_of_nil in Hp.
  - intros fuel. unfold _wait_until_partners_ready. cbn.
    unfold bind.
    destruct (aggregator_ready_loop_no_raise alternating_env fuel
                ["n1"; "n2"] (-1) 0 w0) as [E|E]; rewrite E; [|done].
    apply aggregator_ready_loop_result in E as (k & _ & Hk).
    unfold ready_attempt in Hk. cbn in Hk. by destruct (Nat.even k).
Qed.

(** C4. On [unreachable_env] the analyzer's handshake does not fail: it
    is still retrying after any number of attempts, each one a sleep
    and a [ready_check]. *)
Theorem analyzer_handshake_retries_forever :
  forall fuel,
    result (_wait_until_partners_ready (Res:=string) unreachable_env
              fuel w0) = OutOfFuel /\
    length (events (_wait_until_partners_ready (Res:=string)
                      unreachable_env fuel w0)) = 2 * fuel.
Proof.
  intros fuel. unfold _wait_until_partners_ready. cbn. unfold bind at 1 3. cbn.
  match goal with |- context [analyzer_ready_loop _ fuel [] ?w1] =>
    destruct (analyzer_ready_loop_unreachable (Res:=string) unreachable_env
                fuel [] w1) as [E1 E2]
  end.
  - intros t. cbn. apply not_elem_of_nil.
  - apply not_elem_of_nil.
  - unfold bind at 1 2. rewrite E1. cbn. by rewrite E2.
Qed.

(** C6. The analyzer's waiting step faults when the aggregator has not
    answered in time: a [None] entry raises [TypeError], an empty
    message list [IndexError], a missing entry [KeyError]; the
    exception leaves [start_analyzer]. *)
Theorem waiting_step_faults_on_timeout :
  aggregated_result_of [("agg", None)] "agg" = inl TypeError /\
  aggregated_result_of [("agg", Some [])] "agg" = inl IndexError /\
  aggregated_result_of [] "agg" = inl (KeyError "agg") /\
  result (start_analyzer id (quiet_env "default") (AnInstance count_strategy)
            (QStr "Patient") true 3 w0) = Raise TypeError.
Proof. repeat split; vm_compute; reflexivity. Qed.

(** C9. When the GET of a query itself raises, as on
    [unreachable_source_env] for [Observation], the exception leaves
    [_get_data]: the call is made before the [try], so the query is
    not skipped, the remaining query [Condition] is never issued and
    the body already fetched for [Patient] is lost. *)
Theorem get_data_aborts_on_transport_failure :
  _get_data (Res:=string) unreachable_source_env
    (QList ["Patient"; "Observation"; "Condition"]) w0
  = Run [EvHttpGet "/p1/fhir/Patient" [("Connection", "close")]
                   (inr (mkResponse 200 (Some "/p1/fhir/Patient")));
         EvHttpGet "/p1/fhir/Observation" [("Connection", "close")]
                   (inl (ConnectError "All connection attempts failed"))]
        (mkWorld false 2 [])
        (Raise (ConnectError "All connection attempts failed")).
Proof. vm_compute. reflexivity. Qed.

Lemma quiet_env_covers_partners :
  reply_covers_partners (quiet_env "aggregator") sum_strategy.
Proof.
  intros t p Hp. cbn in Hp |- *.
  apply elem_of_cons in Hp as [->|Hp]; [by eexists|].
  apply elem_of_cons in Hp as [->|Hp]; [by eexists|].
  by apply elem_of_nil in Hp.
Defined.

Lemma answering_env_covers_partners :
  reply_covers_partners (answering_env (inr "stored")) sum_strategy.
Proof.
  intros t p Hp. cbn in Hp |- *.
  apply elem_of_cons in Hp as [->|Hp]; [by eexists|].
  apply elem_of_cons in Hp as [->|Hp]; [by eexists|].
  by apply elem_of_nil in Hp.
Defined.

Lemma round_completeness_barrier_witness :
  (reply_covers_partners (answering_env (inr "stored")) sum_strategy /\
   exists pre post,
     events (start_aggregator id (answering_env (inr "stored"))
               (AnInstance sum_strategy) true 3 w0)
     = pre ++ EvAggregate ["5"; "7"] true ("5+7", true) :: post /\
     exists pre' d,
       pre = pre' ++ [EvAwaitResponses ["n1"; "n2"] intermediate_results
                        None d] /\
       (forall p, p ∈ ["n1"; "n2"] ->
          exists m ms, dict_get d p = Some (Some (m :: ms))) /\
       all_present d /\
       node_results_of (dict_values d) = inr ["5"; "7"]) /\
  (reply_covers_partners (quiet_env "aggregator") sum_strategy /\
   exists w1,
     finished w1 = false /\
     events (aggregator_loop id (quiet_env "aggregator") 2 sum_strategy
               true w0)
     = awaited sum_strategy [("n1", None); ("n2", None)]
       :: events (aggregator_loop id (quiet_env "aggregator") 1 sum_strategy
                    true w1) /\
     result (aggregator_loop id (quiet_env "aggregator") 2 sum_strategy
               true w0)
     = result (aggregator_loop id (quiet_env "aggregator") 1 sum_strategy
                 true w1)).
Proof.
  split; (split; [first [exact answering_env_covers_partners
                        |exact quiet_env_covers_partners]|]).
  - set (d := [("n1", Some [result_message "n1" "5"]);
               ("n2", Some [result_message "n2" "7"])] : ResponseDict).
    set (pre := [EvSleep 1;
                 EvSendMessage ["n1"; "n2"] ready_check [] (Some 120)
                               (["n1"; "n2"], []);
                 EvAwaitResponses ["n1"; "n2"] intermediate_results None d]
                : list (Event string string)).
    set (post := [EvSubmitFinalResult (final_payload id "5+7")
                                      (inr "stored");
                  EvAnalysisFinished;
                  EvNodeFinished KAggregator]
                 : list (Event string string)).
    assert (H : events (start_aggregator id (answering_env (inr "stored"))
                          (AnInstance sum_strategy) true 3 w0)
                = pre ++ EvAggregate ["5"; "7"] true ("5+7", true) :: post)
      by reflexivity.
    exists pre, post. split; [exact H|].
    exact (proj1 (round_completeness_barrier id
                    (answering_env (inr "stored")) sum_strategy
                    (AnInstance sum_strategy) true 3 w0
                    (or_introl eq_refl) answering_env_covers_partners)
                 _ _ _ _ _ H).
  - apply (proj2 (round_completeness_barrier id (quiet_env "aggregator")
                    sum_strategy (AnInstance sum_strategy) true 0 w0
                    (or_introl eq_refl) quiet_env_covers_partners)
                 1 w0).
    + reflexivity.
    + exists "n1". split; [apply elem_of_cons; by left|]. by left.
Defined.

Lemma completion_signalled_once_after_submission_witness :
  (exists pre post,
     events (start_aggregator id (answering_env (inr "stored"))
               (AnInstance sum_strategy) true 3 w0)
     = pre ++ EvAnalysisFinished :: post /\
     (exists pre' rs res ack,
        pre = pre' ++ [EvAggregate rs true (res, true);
                       EvSubmitFinalResult (final_payload id res)
                                           (inr ack)]) /\
     post = [EvNodeFinished KAggregator] /\
     result (start_aggregator id (answering_env (inr "stored"))
               (AnInstance sum_strategy) true 3 w0) = Ret tt /\
     finished (world (start_aggregator id (answering_env (inr "stored"))
               (AnInstance sum_strategy) true 3 w0)) = true) /\
  (EvSubmitFinalResult (final_payload id "5+7")
     (inl (CollaboratorError "storage unavailable"))
   ∈ events (start_aggregator id
               (answering_env (inl (CollaboratorError "storage unavailable")))
               (AnInstance sum_strategy) true 3 w0) /\
   result (start_aggregator id
             (answering_env (inl (CollaboratorError "storage unavailable")))
             (AnInstance sum_strategy) true 3 w0)
   = Raise (CollaboratorError "storage unavailable") /\
   signals (events (start_aggregator id
             (answering_env (inl (CollaboratorError "storage unavailable")))
             (AnInstance sum_strategy) true 3 w0)) = 0 /\
   finished (world (start_aggregator id
             (answering_env (inl (CollaboratorError "storage unavailable")))
             (AnInstance sum_strategy) true 3 w0)) = false).
Proof.
  split.
  - set (d := [("n1", Some [result_message "n1" "5"]);
               ("n2", Some [result_message "n2" "7"])] : ResponseDict).
    set (pre := [EvSleep 1;
                 EvSendMessage ["n1"; "n2"] ready_check [] (Some 120)
                               (["n1"; "n2"], []);
                 EvAwaitResponses ["n1"; "n2"] intermediate_results None d;
                 EvAggregate ["5"; "7"] true ("5+7", true);
                 EvSubmitFinalResult (final_payload id "5+7")
                                     (inr "stored")]
                : list (Event string string)).
    assert (H : events (start_aggregator id (answering_env (inr "stored"))
                          (AnInstance sum_strategy) true 3 w0)
                = pre ++ EvAnalysisFinished :: [EvNodeFinished KAggregator])
      by reflexivity.
    exists pre, [EvNodeFinished KAggregator]. split; [exact H|].
    exact (proj1 (proj2 (completion_signalled_once_after_submission id
                    (answering_env (inr "stored"))
                    (AnInstance sum_strategy) true 3 w0)) _ _ H).
  - assert (H : EvSubmitFinalResult (final_payload id "5+7")
                  (inl (CollaboratorError "storage unavailable"))
                ∈ events (start_aggregator id
                    (answering_env
                       (inl (CollaboratorError "storage unavailable")))
                    (AnInstance sum_strategy) true 3 w0)).
    { cbn. do 4 (apply elem_of_cons; right). apply elem_of_cons. by left. }
    split; [exact H|].
    exact (proj2 (proj2 (completion_signalled_once_after_submission id
                    (answering_env
                       (inl (CollaboratorError "storage unavailable")))
                    (AnInstance sum_strategy) true 3 w0)) _ _ H).
Defined.

Lemma local_convergence_silences_analyzer_witness :
  events (analyzer_loop id (quiet_env "default") 3 one_shot_strategy
            (FBody "{}") true None true w0) = [] /\
  (exists pre post,
     events (analyzer_loop id (quiet_env "default") 3 one_shot_strategy
               (FBody "{}") true None false w0)
     = pre ++ EvAnalyze (FBody "{}") None true ("5", true) :: post /\
     exists reply,
       post = [EvSendMessage ["agg"] intermediate_results
                 [("result", "5")] None reply]).
Proof.
  split.
  - exact (proj1 (local_convergence_silences_analyzer id
                    (quiet_env "default") one_shot_strategy (FBody "{}")
                    true 3 None true w0) eq_refl).
  - assert (H : events (analyzer_loop id (quiet_env "default") 3
                          one_shot_strategy (FBody "{}") true None false w0)
                = [] ++ EvAnalyze (FBody "{}") None true ("5", true)
                  :: [EvSendMessage ["agg"] intermediate_results
                        [("result", "5")] None (["agg"], [])])
      by reflexivity.
    eexists [], _. split; [exact H|].
    exact (proj2 (local_convergence_silences_analyzer id
                    (quiet_env "default") one_shot_strategy (FBody "{}")
                    true 3 None false w0) _ _ _ _ _ _ H).
Defined.

(** * Further properties *)

Section AggregatorRuns.

Context {Res JSON : Type}.
Variable py_str : Res -> string.
Variable env : Env JSON.

Implicit Types (w : World Res JSON) (fuel : nat) (simple : bool).
Implicit Types (evs : list (Event Res JSON)) (out : outcome unit).

(** ** Further properties of the entrypoints *)

Lemma is_aggregator_true : role env = "aggregator" -> is_aggregator env = true.
Proof. apply is_aggregator_spec. Qed.

Lemma is_analyzer_true : role env = "default" -> is_analyzer env = true.
Proof. apply is_analyzer_spec. Qed.

Lemma bind_ret_run {A B} (m : M Res JSON A) (f : A -> M Res JSON B) w a :
  result (m w) = Ret a ->
  bind m f w
  = Run (events (m w) ++ events (f a (world (m w))))
        (world (f a (world (m w))))
        (result (f a (world (m w)))).
Proof. unfold bind. by intros ->. Qed.

Lemma bind_stop_run {A B} (m : M Res JSON A) (f : A -> M Res JSON B) w :
  (forall a, result (m w) <> Ret a) ->
  events (bind m f w) = events (m w) /\
  world (bind m f w) = world (m w) /\
  match result (m w) with
  | Ret _ => False
  | Raise e => result (bind m f w) = Raise e
  | OutOfFuel => result (bind m f w) = OutOfFuel
  end.
Proof.
  unfold bind. intros H. destruct (result (m w)) eqn:E; cbn; try done.
  by destruct (H a).
Qed.

(** X1. With the right role, an argument that is a class outside the
    expected hierarchy is rejected with the "incorrect class" error,
    and an argument that is no class at all makes [issubclass] raise
    [TypeError]; either way no collaborator has been called. *)
Theorem invalid_strategy_rejected_before_any_effect
    (query : Query) simple fuel w :
  (role env = "aggregator" ->
   start_aggregator py_str env AnotherClass simple fuel w
   = Run [] w (Raise (BrokenPipeError IS_INCORRECT_CLASS)) /\
   start_aggregator py_str env NotAClass simple fuel w
   = Run [] w (Raise TypeError)) /\
  (role env = "default" ->
   start_analyzer py_str env AnotherClass query simple fuel w
   = Run [] w (Raise (BrokenPipeError IS_INCORRECT_CLASS)) /\
   start_analyzer py_str env NotAClass query simple fuel w
   = Run [] w (Raise TypeError)).
Proof.
  split; intros H.
  - unfold start_aggregator. by rewrite (is_aggregator_true H).
  - unfold start_analyzer. by rewrite (is_analyzer_true H).
Qed.

(** X4. When every entry of the response dict is a non-empty list, the
    node results are, entry by entry and in the order of the dict, the
    [result] field of the last message of each entry; the comprehension
    fails only with [KeyError('result')]. *)
Theorem node_results_are_latest_results
    (values : list (option (list Message))) :
  forallb truthy values = true ->
  (forall rs,
     node_results_of values = inr rs <->
     Forall2 (fun v r => exists ms m,
                v = Some ms /\ last ms = Some m /\
                dict_get (body m) "result" = Some r) values rs) /\
  (forall e, node_results_of values = inl e -> e = KeyError "result").
Proof.
  induction values as [|v values IH]; cbn.
  - intros _. split.
    + intros rs. split.
      * intros H. injection H as <-. constructor.
      * intros H. by inversion H.
    + intros e H. discriminate H.
  - intros Ht. apply andb_true_iff in Ht as [Hv Hvs].
    destruct (IH Hvs) as [IHr IHe]. clear IH.
    destruct v as [[|m0 ms0]|]; try discriminate Hv.
    unfold latest_result, last_item, getitem.
    destruct (last (m0 :: ms0)) as [m|] eqn:El.
    2:{ by apply last_None in El. }
    destruct (dict_get (body m) "result") as [r|] eqn:Er.
    + split.
      * intros rs. destruct (node_results_of values) as [e|rs'] eqn:En.
        -- split; [discriminate|]. intros H. inversion H as [|? ? ? ? _ Hrest]; subst.
           by apply IHr in Hrest.
        -- split.
           ++ intros H. injection H as <-. constructor; [|by apply IHr].
              by exists (m0 :: ms0), m.
           ++ intros H. inversion H as [|? ? ? ? Hhd Hrest]; subst.
              destruct Hhd as (ms & m' & Hms & Hl & Hd).
              injection Hms as <-. rewrite El in Hl. injection Hl as <-.
              rewrite Er in Hd. injection Hd as <-.
              apply IHr in Hrest. by injection Hrest as <-.
      * intros e. destruct (node_results_of values) as [e'|rs'] eqn:En;
          [|discriminate]. intros H. injection H as <-. by apply IHe.
    + split.
      * intros rs. split; [discriminate|].
        intros H. inversion H as [|? ? ? ? Hhd Hrest]; subst.
        destruct Hhd as (ms & m' & Hms & Hl & Hd).
        injection Hms as <-. rewrite El in Hl. injection Hl as <-.
        by rewrite Er in Hd.
      * intros e H. by injection H as <-.
Qed.

(** X5. Analyzer-side handshake: when the aggregator acknowledges the
    attempt numbered [k] and none before, the handshake returns after
    exactly [k + 1] turns of sleep and [ready_check]. *)
Theorem analyzer_handshake_returns_at_first_acknowledgement fuel k w :
  role env = "default" ->
  k < fuel ->
  (forall i, i < k ->
     aggregator_id env
     ∉ (ready_attempt env [aggregator_id env] (clock w + i)).1) ->
  aggregator_id env
  ∈ (ready_attempt env [aggregator_id env] (clock w + k)).1 ->
  result (_wait_until_partners_ready (Res:=Res) env fuel w) = Ret tt /\
  length (events (_wait_until_partners_ready (Res:=Res) env fuel w))
  = 2 * S k.
Proof.
  intros Hrole Hk Hbefore Hat. unfold _wait_until_partners_ready.
  rewrite (is_analyzer_true Hrole).
  rewrite (bind_ret_run _ _ _ tt) by reflexivity.
  set (w1 := world (print PAwaitAggregator w)).
  destruct (analyzer_ready_loop_success (Res:=Res) env fuel k [] w1)
    as [E1 E2]; try done; [apply not_elem_of_nil|].
  rewrite (bind_ret_run _ _ _ _ E1).
  rewrite bool_decide_eq_true_2 by done.
  rewrite (bind_ret_run _ _ _ tt) by reflexivity.
  clearbody w1. cbn. rewrite !app_nil_r, E2. split; [done|lia].
Qed.

Lemma concat_turns {A} (f : nat -> list A) n :
  concat (map f (seq 0 (S n))) = f 0 ++ concat (map (fun i => f (S i)) (seq 0 n)).
Proof. cbn. by rewrite <- List.seq_shift, List.map_map. Qed.

Lemma analyzer_ready_loop_turns fuel (received : list NodeID) w :
  exists n, n <= fuel /\
    events (analyzer_ready_loop (Res:=Res) env fuel received w)
    = concat (map (fun i =>
                     ready_turn [aggregator_id env]
                       (ready_attempt env [aggregator_id env] (clock w + i)))
                  (seq 0 n)).
Proof.
  revert received w. induction fuel as [|k IH]; intros received w; cbn.
  - exists 0. by case_bool_decide.
  - case_bool_decide; [by exists 0; split; [lia|]|].
    unfold bind; cbn. unfold ready_attempt.
    destruct (send_reply env (clock w) _ _ _ _) as [rl nl] eqn:Er; cbn.
    destruct (IH rl (tick w)) as (n & Hn & E).
    exists (S n). split; [lia|].
    rewrite concat_turns, Nat.add_0_r, Er. cbn.
    destruct (analyzer_ready_loop env k rl (tick w)) as [evs w2 [l| |]];
      cbn in *; rewrite E; unfold ready_attempt; do 3 f_equal;
      apply List.map_ext; intros i;
      by replace (clock w + S i) with (S (clock w + i)) by lia.
Qed.

Lemma aggregator_ready_loop_turns fuel (ids : list NodeID)
    (latest num : Z) w :
  exists n, n <= fuel /\
    events (aggregator_ready_loop (Res:=Res) env fuel ids latest num w)
    = concat (map (fun i =>
                     ready_turn ids (ready_attempt env ids (clock w + i)))
                  (seq 0 n)).
Proof.
  revert latest num w.
  induction fuel as [|k IH]; intros latest num w; cbn; [by exists 0|].
  unfold bind; cbn. unfold ready_attempt.
  destruct (latest <? num)%Z; cbn;
    destruct (send_reply env (clock w) ids ready_check [] (Some 120))
      as [rl nl] eqn:Er; cbn;
    destruct (_ =? _)%Z; cbn.
  all: try (exists 1; split; [lia|]; cbn; by rewrite Nat.add_0_r, Er).
  all: match goal with
       | |- context [aggregator_ready_loop ?e ?k0 ?i ?l ?m ?w1] =>
           destruct (IH l m w1) as (n & Hn & E);
           exists (S n); split; [lia|];
           rewrite concat_turns, Nat.add_0_r, Er; cbn;
           destruct (aggregator_ready_loop e k0 i l m w1)
             as [evs w2 [[]| |]];
           cbn in *; rewrite E; unfold ready_attempt; do 3 f_equal;
           apply List.map_ext; intros j;
           by replace (clock w + S j) with (S (clock w + j)) by lia
       end.
Qed.

Lemma wait_until_partners_ready_turns fuel w :
  let receivers := if is_analyzer env then [aggregator_id env]
                   else participant_ids env in
  exists n, n <= fuel /\
    events (_wait_until_partners_ready (Res:=Res) env fuel w)
    = concat (map (fun i =>
                     ready_turn receivers
                       (ready_attempt env receivers (clock w + i)))
                  (seq 0 n)).
Proof.
  cbn zeta. unfold _wait_until_partners_ready. destruct (is_analyzer env).
  - rewrite (bind_ret_run _ _ _ tt) by reflexivity.
    set (w1 := world (print PAwaitAggregator w)).
    destruct (analyzer_ready_loop_turns fuel [] w1) as (n & Hn & E).
    exists n. split; [done|]. cbn [events print app].
    pose proof (analyzer_ready_loop_result (Res:=Res) env fuel [] w1) as Hr.
    unfold bind at 1.
    destruct (analyzer_ready_loop env fuel [] w1) as [evs w2 [l| |]];
      cbn in *; try done.
    unfold bind; cbn. rewrite bool_decide_eq_true_2 by done. cbn.
    by rewrite !app_nil_r.
  - destruct (aggregator_ready_loop_turns fuel (participant_ids env)
                (-1) 0 w) as (n & Hn & E).
    exists n. split; [done|]. unfold bind.
    destruct (aggregator_ready_loop env fuel (participant_ids env) (-1) 0 w)
      as [evs w2 [[]| |]]; cbn in *; by rewrite ?app_nil_r.
Qed.


Lemma wait_until_partners_ready_phase fuel w :
  Forall (fun e => phase e = 1)
    (events (_wait_until_partners_ready (Res:=Res) env fuel w)).
Proof.
  destruct (wait_until_partners_ready_turns fuel w) as (n & _ & ->).
  induction (seq 0 n) as [|i l IH]; cbn; [constructor|].
  by repeat (apply Forall_cons; split; [done|]).
Qed.

(** ** Further properties of the aggregator's rounds *)

Lemma agg_trace_phase (ag : AggregatorObj Res) simple evs out fin :
  agg_trace py_str ag simple evs out fin ->
  Forall (fun e => phase e = 3) evs.
Proof.
  induction 1; repeat (apply Forall_cons; split; [done|]);
    try done; constructor.
Qed.

Lemma agg_trace_ret (ag : AggregatorObj Res) simple evs out fin :
  agg_trace py_str ag simple evs out fin -> out = Ret tt -> fin = true.
Proof. induction 1; intros Ho; try done; by apply IHagg_trace. Qed.

Lemma agg_trace_forward (ag : AggregatorObj Res) simple evs out fin :
  agg_trace py_str ag simple evs out fin ->
  forall pre rs s res c post,
    evs = pre ++ EvAggregate rs s (res, c) :: post ->
    (c = true /\
     exists reply post',
       post = EvSubmitFinalResult (final_payload py_str res) reply :: post')
    \/
    (c = false /\
     exists reply post',
       post = EvSendMessage (partner_node_ids ag) aggregated_results
                [("result", py_str res)] None reply :: post').
Proof.
  induction 1 as [| |d evs out fin Hd _ IH|d e Hd He
                  |d rs0 res0 reply0 evs out fin Hd Hrs _ IH
                  |d rs0 res0 e Hd Hrs|d rs0 res0 ack Hd Hrs];
    intros pre rs s res c post H; symmetry in H.
  - by apply app_cons_not_nil in H.
  - by apply app_cons_not_nil in H.
  - apply app_cons_inv in H as [(_ & Hx & _)|(pre1 & _ & H)]; [done|].
    symmetry in H. by apply IH in H.
  - apply app_cons_inv in H as [(_ & Hx & _)|(pre1 & _ & H)]; [done|].
    by apply app_cons_not_nil in H.
  - apply app_cons_inv in H as [(_ & Hx & _)|(pre1 & _ & H)]; [done|].
    apply app_cons_inv in H as [(_ & Hx & Hp)|(pre2 & _ & H)].
    { injection Hx as -> -> -> ->. right. split; [done|]. subst post.
      by eexists _, _. }
    apply app_cons_inv in H as [(_ & Hx & _)|(pre3 & _ & H)]; [done|].
    symmetry in H. by apply IH in H.
  - apply app_cons_inv in H as [(_ & Hx & _)|(pre1 & _ & H)]; [done|].
    apply app_cons_inv in H as [(_ & Hx & Hp)|(pre2 & _ & H)].
    { injection Hx as -> -> -> ->. left. split; [done|]. subst post.
      by eexists _, _. }
    apply app_cons_inv in H as [(_ & Hx & _)|(pre3 & _ & H)]; [done|].
    by apply app_cons_not_nil in H.
  - apply app_cons_inv in H as [(_ & Hx & _)|(pre1 & _ & H)]; [done|].
    apply app_cons_inv in H as [(_ & Hx & Hp)|(pre2 & _ & H)].
    { injection Hx as -> -> -> ->. left. split; [done|]. subst post.
      by eexists _, _. }
    apply app_cons_inv in H as [(_ & Hx & _)|(pre3 & _ & H)]; [done|].
    apply app_cons_inv in H as [(_ & Hx & _)|(pre4 & _ & H)]; [done|].
    by apply app_cons_not_nil in H.
Qed.

(** X3. In the aggregator's loop every result of the aggregation
    strategy is passed on at once: when the strategy reports
    convergence, the next call submits the UTF-8 bytes of [str] of the
    result as final result; otherwise the next call sends
    [{'result': str(result)}] as [aggregated_results] to the partner
    nodes. *)
Theorem aggregated_result_is_passed_on (ag : AggregatorObj Res) simple fuel w
    pre rs s res c post :
  events (aggregator_loop py_str env fuel ag simple w)
  = pre ++ EvAggregate rs s (res, c) :: post ->
  (c = true /\
   exists reply post',
     post = EvSubmitFinalResult (final_payload py_str res) reply :: post')
  \/
  (c = false /\
   exists reply post',
     post = EvSendMessage (partner_node_ids ag) aggregated_results
              [("result", py_str res)] None reply :: post').
Proof.
  apply (agg_trace_forward ag simple _ _ _
           (aggregator_loop_trace py_str env fuel ag simple w)).
Qed.

(** ** Stages of a run *)

Lemma phase_order_const (c : nat) evs :
  Forall (fun e => phase e = c) evs -> in_phase_order evs.
Proof.
  intros H i j e1 e2 _ H1 H2. rewrite Forall_forall in H.
  rewrite (H e1), (H e2); [done| |]; by eapply list_elem_of_lookup_2.
Qed.

Lemma phase_order_app (c : nat) evs1 evs2 :
  in_phase_order evs1 -> in_phase_order evs2 ->
  Forall (fun e => phase e <= c) evs1 ->
  Forall (fun e => c <= phase e) evs2 ->
  in_phase_order (evs1 ++ evs2).
Proof.
  intros O1 O2 B1 B2 i j e1 e2 Hij H1 H2.
  rewrite Forall_forall in B1, B2.
  apply lookup_app_Some in H1 as [H1|[Hi H1]];
    apply lookup_app_Some in H2 as [H2|[Hj H2]].
  - by apply (O1 i j).
  - transitivity c; [apply B1|apply B2]; by eapply list_elem_of_lookup_2.
  - apply lookup_lt_Some in H2. lia.
  - apply (O2 (i - length evs1) (j - length evs1)); [lia|done|done].
Qed.

Lemma phase_order_blocks (a b c d e : list (Event Res JSON)) :
  Forall (fun x => phase x = 0) a ->
  Forall (fun x => phase x = 1) b ->
  Forall (fun x => phase x = 2) c ->
  Forall (fun x => phase x = 3) d ->
  Forall (fun x => phase x = 4) e ->
  in_phase_order (a ++ b ++ c ++ d ++ e).
Proof.
  intros Ha Hb Hc Hd He.
  apply (phase_order_app 0); [by eapply phase_order_const| |
    by eapply Forall_impl; [exact Ha|cbn; lia] |
    rewrite !Forall_app; repeat split;
      (eapply Forall_impl; [eassumption|cbn; lia])].
  apply (phase_order_app 1); [by eapply phase_order_const| |
    by eapply Forall_impl; [exact Hb|cbn; lia] |
    rewrite !Forall_app; repeat split;
      (eapply Forall_impl; [eassumption|cbn; lia])].
  apply (phase_order_app 2); [by eapply phase_order_const| |
    by eapply Forall_impl; [exact Hc|cbn; lia] |
    rewrite !Forall_app; repeat split;
      (eapply Forall_impl; [eassumption|cbn; lia])].
  apply (phase_order_app 3); [by eapply phase_order_const| |
    by eapply Forall_impl; [exact Hd|cbn; lia] |
    by eapply Forall_impl; [exact He|cbn; lia]].
  by eapply phase_order_const.
Qed.

Ltac stages :=
  cbn; rewrite ?app_nil_r;
  split; [done|];
  split; [by repeat constructor|];
  split; [done || constructor|];
  split; [done || constructor|].

(** A run of [start_aggregator], stage by stage. *)
Lemma start_aggregator_phases (aggregator : StrategyArg (AggregatorObj Res))
    simple fuel w :
  let r := start_aggregator py_str env aggregator simple fuel w in
  exists inst hs rounds tail,
    events r = inst ++ hs ++ rounds ++ tail /\
    Forall (fun e => phase e = 0) inst /\
    Forall (fun e => phase e = 1) hs /\
    Forall (fun e => phase e = 3) rounds /\
    (tail = [EvNodeFinished KAggregator] /\ result r = Ret tt /\
     finished (world r) = true
     \/ tail = [] /\ result r <> Ret tt).
Proof.
  cbn zeta. unfold start_aggregator.
  destruct (is_aggregator env); [|exists [], [], [], []; stages; by right].
  destruct aggregator as [o|init| |]; cbn;
    try (exists [], [], [], []; stages; by right).
  - unfold bind; cbn.
    pose proof (wait_until_partners_ready_phase fuel w) as Hq.
    destruct (_wait_until_partners_ready env fuel w) as [pevs w1 [[]|e|]];
      cbn in *; try (exists [], pevs, [], []; stages; by right).
    pose proof (aggregator_loop_trace py_str env fuel o simple w1) as Htr.
    pose proof (agg_trace_phase _ _ _ _ _ Htr) as Hph.
    pose proof (agg_trace_ret _ _ _ _ _ Htr) as Hret.
    destruct (aggregator_loop py_str env fuel o simple w1)
      as [levs w2 [[]|e|]]; cbn in *.
    + exists [], pevs, levs, [EvNodeFinished KAggregator]. stages.
      left. auto.
    + exists [], pevs, levs, []. stages. by right.
    + exists [], pevs, levs, []. stages. by right.
  - unfold bind; cbn.
    pose proof (wait_until_partners_ready_phase fuel w) as Hq.
    destruct (_wait_until_partners_ready env fuel w) as [pevs w1 [[]|e|]];
      cbn in *;
      try (exists [EvInstantiate KAggregator], pevs, [], []; stages;
           by right).
    pose proof (aggregator_loop_trace py_str env fuel init simple w1) as Htr.
    pose proof (agg_trace_phase _ _ _ _ _ Htr) as Hph.
    pose proof (agg_trace_ret _ _ _ _ _ Htr) as Hret.
    destruct (aggregator_loop py_str env fuel init simple w1)
      as [levs w2 [[]|e|]]; cbn in *.
    + exists [EvInstantiate KAggregator], pevs, levs,
        [EvNodeFinished KAggregator]. stages. left. auto.
    + exists [EvInstantiate KAggregator], pevs, levs, []. stages. by right.
    + exists [EvInstantiate KAggregator], pevs, levs, []. stages. by right.
Qed.

Lemma not_finalisation (c : nat) evs :
  c <> 4 -> Forall (fun e => phase e = c) evs ->
  Forall (fun e => phase e <> 4) evs.
Proof.
  intros Hc H. eapply Forall_impl; [exact H|]. by intros e ->.
Qed.

(** X2. [start_aggregator] returns normally only with the global flag
    set, and then its last call is the finalisation hook
    [node_finished]; the hook is called at no other point of a run: a
    run that raises or is still looping has not called it. *)
Theorem aggregator_finalisation_hook
    (aggregator : StrategyArg (AggregatorObj Res)) simple fuel w :
  let r := start_aggregator py_str env aggregator simple fuel w in
  (result r = Ret tt ->
   finished (world r) = true /\
   exists evs', events r = evs' ++ [EvNodeFinished KAggregator]) /\
  (forall pre k post,
     events r = pre ++ EvNodeFinished k :: post ->
     k = KAggregator /\ post = [] /\ result r = Ret tt).
Proof.
  cbn zeta.
  destruct (start_aggregator_phases aggregator simple fuel w)
    as (inst & hs & rounds & tail & Hev & Hi & Hh & Hr & Ht).
  cbn zeta in *. split.
  - intros Hres. destruct Ht as [(-> & _ & Hf)|[_ Hn]]; [|done].
    split; [done|]. exists (inst ++ hs ++ rounds).
    by rewrite Hev, <- !app_assoc.
  - intros pre k post H. rewrite Hev in H.
    replace (inst ++ hs ++ rounds ++ tail)
      with ((inst ++ hs ++ rounds) ++ tail ++ []) in H
      by (by rewrite app_nil_r, <- !app_assoc).
    apply (locate_in_middle (fun e => phase e <> 4)) in H
      as (pre0 & post0 & Hmid & _ & ->); [| |constructor|by cbn; lia].
    2:{ rewrite !Forall_app. repeat split;
          (eapply not_finalisation; [|eassumption]); lia. }
    destruct Ht as [(-> & Hres & _)|[-> _]].
    + symmetry in Hmid.
      apply app_cons_inv in Hmid as [(_ & Hx & Hp)|(pre1 & _ & Hmid)].
      * injection Hx as ->. by subst post0.
      * by apply app_cons_not_nil in Hmid.
    + symmetry in Hmid. by apply app_cons_not_nil in Hmid.
Qed.

(** ** Further properties of the analyzer's rounds *)

Lemma analyzer_loop_finished fuel (an : AnalyzerObj Res JSON)
    (data : FetchResult JSON) simple (agg : option string) (conv : bool) w :
  finished w = true ->
  analyzer_loop py_str env fuel an data simple agg conv w
  = Run [] (mkWorld true (S (clock w)) (stdout w)) (Ret tt).
Proof.
  intros Hf. destruct fuel; cbn; unfold bind; cbn; by rewrite Hf.
Qed.

(** Every run of the analyzer's loop is a sequence of iterations. *)
Lemma analyzer_loop_trace fuel (an : AnalyzerObj Res JSON)
    (data : FetchResult JSON) simple (agg : option string) (conv : bool) w :
  an_trace py_str env an data simple agg conv
    (events (analyzer_loop py_str env fuel an data simple agg conv w))
    (result (analyzer_loop py_str env fuel an data simple agg conv w))
    (finished (world (analyzer_loop py_str env fuel an data simple agg
                        conv w))).
Proof.
  revert agg conv w.
  induction fuel as [|n IH]; intros agg conv w; cbn; unfold bind; cbn.
  - destruct (finished w || ext_finished env (clock w)); cbn; constructor.
  - destruct (finished w || ext_finished env (clock w)) eqn:Ec; cbn;
      [constructor|].
    destruct conv; cbn.
    + rewrite andb_false_r; cbn. apply IH.
    + destruct (analyze_method an _ data agg simple) as [res c] eqn:Ea.
      cbn. destruct c; cbn.
      * rewrite andb_false_r; cbn.
        match goal with |- context [analyzer_loop _ _ n _ _ _ agg true ?w1] =>
          pose proof (IH agg true w1) as H
        end.
        rewrite analyzer_loop_locally_converged in H |- *.
        by apply nt_local.
      * rewrite andb_true_r.
        destruct (ext_finished env (S (S (S (clock w))))) eqn:Ec2; cbn.
        -- rewrite analyzer_loop_finished by done. cbn. apply nt_flag_seen.
        -- destruct (aggregated_result_of _ _) as [e|r] eqn:Er; cbn.
           ++ by apply nt_wait_failed.
           ++ eapply nt_round; [exact Er|]. apply IH.
Qed.

End AggregatorRuns.

Section AnalyzerRuns.

Context {Res JSON : Type}.
Variable py_str : Res -> string.
Variable env : Env JSON.

Implicit Types (w : World Res JSON) (fuel : nat) (simple : bool).
Implicit Types (evs : list (Event Res JSON)) (out : outcome unit).

Lemma an_trace_phase (an : AnalyzerObj Res JSON) (data : FetchResult JSON)
    simple agg conv evs out fin :
  an_trace py_str env an data simple agg conv evs out fin ->
  Forall (fun e => phase e = 3) evs.
Proof.
  induction 1; repeat (apply Forall_cons; split; [done|]);
    try done; constructor.
Qed.

Lemma an_trace_ret (an : AnalyzerObj Res JSON) (data : FetchResult JSON)
    simple agg conv evs out fin :
  an_trace py_str env an data simple agg conv evs out fin ->
  out = Ret tt -> fin = true.
Proof. induction 1; intros Ho; try done; by apply IHan_trace. Qed.

Lemma an_trace_analyze (an : AnalyzerObj Res JSON) (data : FetchResult JSON)
    simple agg conv evs out fin :
  an_trace py_str env an data simple agg conv evs out fin ->
  forall pre d a s reply post,
    evs = pre ++ EvAnalyze d a s reply :: post ->
    d = data /\ s = simple /\
    (pre = [] /\ a = agg \/
     exists pre' dd r,
       pre = pre' ++ [EvAwaitResponses [aggregator_id env] aggregated_results
                        (Some 300) dd] /\
       aggregated_result_of dd (aggregator_id env) = inr r /\
       a = Some r).
Proof.
  induction 1 as [agg conv|agg conv|agg res0 reply0 out fin _ _
                  |agg res0 reply0|agg res0 reply0 d0 e Hd
                  |agg res0 reply0 d0 r0 evs out fin Hd _ IH];
    intros pre d a s reply post H; symmetry in H.
  - by apply app_cons_not_nil in H.
  - by apply app_cons_not_nil in H.
  - apply app_cons_inv in H as [(-> & Hx & _)|(pre1 & _ & H)].
    { injection Hx as -> -> -> ->. auto. }
    apply app_cons_inv in H as [(_ & Hx & _)|(pre2 & _ & H)]; [done|].
    by apply app_cons_not_nil in H.
  - apply app_cons_inv in H as [(-> & Hx & _)|(pre1 & _ & H)].
    { injection Hx as -> -> -> ->. auto. }
    apply app_cons_inv in H as [(_ & Hx & _)|(pre2 & _ & H)]; [done|].
    by apply app_cons_not_nil in H.
  - apply app_cons_inv in H as [(-> & Hx & _)|(pre1 & _ & H)].
    { injection Hx as -> -> -> ->. auto. }
    apply app_cons_inv in H as [(_ & Hx & _)|(pre2 & _ & H)]; [done|].
    apply app_cons_inv in H as [(_ & Hx & _)|(pre3 & _ & H)]; [done|].
    by apply app_cons_not_nil in H.
  - apply app_cons_inv in H as [(-> & Hx & _)|(pre1 & -> & H)].
    { injection Hx as -> -> -> ->. auto. }
    apply app_cons_inv in H as [(_ & Hx & _)|(pre2 & -> & H)]; [done|].
    apply app_cons_inv in H as [(_ & Hx & _)|(pre3 & -> & H)]; [done|].
    symmetry in H.
    destruct (IH _ _ _ _ _ _ H) as (-> & -> & [[-> ->]|Hprev]).
    + split; [done|]. split; [done|]. right.
      by exists [EvAnalyze data agg simple (res0, false);
                 EvSendMessage [aggregator_id env] intermediate_results
                   [("result", py_str res0)] None reply0], d0, r0.
    + destruct Hprev as (pre' & dd & r & -> & Hdd & ->).
      split; [done|]. split; [done|]. right.
      by exists (EvAnalyze data agg simple (res0, false)
                 :: EvSendMessage [aggregator_id env] intermediate_results
                      [("result", py_str res0)] None reply0
                 :: EvAwaitResponses [aggregator_id env] aggregated_results
                      (Some 300) d0 :: pre'), dd, r.
Qed.

Lemma an_trace_send (an : AnalyzerObj Res JSON) (data : FetchResult JSON)
    simple agg conv evs out fin :
  an_trace py_str env an data simple agg conv evs out fin ->
  forall pre d a s res c post,
    evs = pre ++ EvAnalyze d a s (res, c) :: post ->
    exists reply post',
      post = EvSendMessage [aggregator_id env] intermediate_results
               [("result", py_str res)] None reply :: post'.
Proof.
  induction 1 as [agg conv|agg conv|agg res0 reply0 out fin _ _
                  |agg res0 reply0|agg res0 reply0 d0 e Hd
                  |agg res0 reply0 d0 r0 evs out fin Hd _ IH];
    intros pre d a s res c post H; symmetry in H.
  - by apply app_cons_not_nil in H.
  - by apply app_cons_not_nil in H.
  - apply app_cons_inv in H as [(_ & Hx & Hp)|(pre1 & _ & H)].
    { injection Hx as -> -> -> -> ->. subst post. by eexists _, _. }
    apply app_cons_inv in H as [(_ & Hx & _)|(pre2 & _ & H)]; [done|].
    by apply app_cons_not_nil in H.
  - apply app_cons_inv in H as [(_ & Hx & Hp)|(pre1 & _ & H)].
    { injection Hx as -> -> -> -> ->. subst post. by eexists _, _. }
    apply app_cons_inv in H as [(_ & Hx & _)|(pre2 & _ & H)]; [done|].
    by apply app_cons_not_nil in H.
  - apply app_cons_inv in H as [(_ & Hx & Hp)|(pre1 & _ & H)].
    { injection Hx as -> -> -> -> ->. subst post. by eexists _, _. }
    apply app_cons_inv in H as [(_ & Hx & _)|(pre2 & _ & H)]; [done|].
    apply app_cons_inv in H as [(_ & Hx & _)|(pre3 & _ & H)]; [done|].
    by apply app_cons_not_nil in H.
  - apply app_cons_inv in H as [(_ & Hx & Hp)|(pre1 & _ & H)].
    { injection Hx as -> -> -> -> ->. subst post. by eexists _, _. }
    apply app_cons_inv in H as [(_ & Hx & _)|(pre2 & _ & H)]; [done|].
    apply app_cons_inv in H as [(_ & Hx & _)|(pre3 & _ & H)]; [done|].
    symmetry in H. by apply IH in H.
Qed.

(** X7. Every call of the analysis strategy in the analyzer's loop
    gets the fetched data and the [simple_analysis] flag unchanged; its
    [aggregator_results] argument is the value the loop was entered
    with (None in [start_analyzer]) for a call that opens the trace,
    and otherwise the [result] field of the latest message of the wait
    for [aggregated_results] made just before it. *)
Theorem analyze_receives_latest_feedback (an : AnalyzerObj Res JSON)
    (data : FetchResult JSON) simple fuel (agg : option string)
    (conv : bool) w pre d a s reply post :
  events (analyzer_loop py_str env fuel an data simple agg conv w)
  = pre ++ EvAnalyze d a s reply :: post ->
  d = data /\ s = simple /\
  (pre = [] /\ a = agg \/
   exists pre' dd r,
     pre = pre' ++ [EvAwaitResponses [aggregator_id env] aggregated_results
                      (Some 300) dd] /\
     aggregated_result_of dd (aggregator_id env) = inr r /\
     a = Some r).
Proof.
  apply (an_trace_analyze an data simple agg conv _ _ _
           (analyzer_loop_trace py_str env fuel an data simple agg conv w)).
Qed.

(** X8. In the analyzer's loop every result of the analysis strategy,
    converged or not, is sent at once to the aggregator alone, as
    [{'result': str(result)}] under [intermediate_results]. *)
Theorem analysis_result_is_sent_to_aggregator (an : AnalyzerObj Res JSON)
    (data : FetchResult JSON) simple fuel (agg : option string)
    (conv : bool) w pre d a s res c post :
  events (analyzer_loop py_str env fuel an data simple agg conv w)
  = pre ++ EvAnalyze d a s (res, c) :: post ->
  exists reply post',
    post = EvSendMessage [aggregator_id env] intermediate_results
             [("result", py_str res)] None reply :: post'.
Proof.
  apply (an_trace_send an data simple agg conv _ _ _
           (analyzer_loop_trace py_str env fuel an data simple agg conv w)).
Qed.

(** The [for] loop of [_get_data] makes nothing but GET calls, and
    ends by returning the mapping or with the exception of a GET. *)
Lemma fetch_queries_phase (qs : list string) (acc : gmap string JSON) w :
  ((exists m, result (fetch_queries (Res:=Res) env qs acc w) = Ret m) \/
   (exists e, result (fetch_queries (Res:=Res) env qs acc w) = Raise e)) /\
  Forall (fun e : Event Res JSON => phase e = 2)
    (events (fetch_queries env qs acc w)).
Proof.
  revert acc w. induction qs as [|q0 qs IH]; intros acc w.
  - cbn. split; [left; by eexists|constructor].
  - cbn. unfold bind, try_except, client_get, raise_for_status, json; cbn.
    destruct (http_reply env (clock w) (fhir_path env q0)) as [e|r]; cbn.
    { split; [right; by eexists|by repeat constructor]. }
    destruct (is_success r); cbn; [destruct (json_body r); cbn|].
    all: match goal with
         | |- context [fetch_queries ?e0 ?l ?a ?w1] =>
             destruct (IH a w1) as [Hres Hev];
             destruct (fetch_queries e0 l a w1) as [evs w2 out]
         end; cbn in *.
    all: split; [|by apply Forall_cons].
    all: destruct Hres as [[m ->]|[e ->]]; cbn; [left|right]; by eexists.
Qed.

(** [_get_data] makes nothing but GET calls, and ends by returning a
    value or with the exception of a GET. *)
Lemma get_data_returns (query : Query) w :
  ((exists data, result (_get_data (Res:=Res) env query w) = Ret data) \/
   (exists e, result (_get_data (Res:=Res) env query w) = Raise e)) /\
  Forall (fun e : Event Res JSON => phase e = 2)
    (events (_get_data env query w)).
Proof.
  destruct query as [q|qs].
  - cbn. unfold bind, try_except, client_get, raise_for_status, json; cbn.
    destruct (http_reply env (clock w) (fhir_path env q)) as [e|r]; cbn.
    { split; [right; by eexists|by repeat constructor]. }
    destruct (is_success _); cbn; [destruct (json_body _); cbn|];
      (split; [left; by eexists|by repeat constructor]).
  - destruct (fetch_queries_phase qs ∅ w) as [Hres Hev].
    cbn. unfold bind.
    destruct (fetch_queries env qs ∅ w) as [evs w2 out]; cbn in *.
    destruct Hres as [[m ->]|[e ->]]; cbn; rewrite ?app_nil_r;
      (split; [|done]); [left|right]; by eexists.
Qed.

(** A run of [start_analyzer], stage by stage. *)
Lemma start_analyzer_phases (analyzer : StrategyArg (AnalyzerObj Res JSON))
    (query : Query) simple fuel w :
  let r := start_analyzer py_str env analyzer query simple fuel w in
  exists inst hs gets rounds tail,
    events r = inst ++ hs ++ gets ++ rounds ++ tail /\
    Forall (fun e => phase e = 0) inst /\
    Forall (fun e => phase e = 1) hs /\
    Forall (fun e => phase e = 2) gets /\
    Forall (fun e => phase e = 3) rounds /\
    (tail = [EvNodeFinished KAnalyzer] /\ result r = Ret tt /\
     finished (world r) = true
     \/ tail = [] /\ result r <> Ret tt).
Proof.
  assert (Hrun : forall (an : AnalyzerObj Res JSON) w0,
    let r := bind (_wait_until_partners_ready env fuel)
      (fun _ => bind (_get_data env query)
         (fun data => bind (print (PDataExtracted data))
            (fun _ => bind (analyzer_loop py_str env fuel an data simple
                              None false)
               (fun _ => node_finished KAnalyzer)))) w0 in
    exists hs gets rounds tail,
      events r = hs ++ gets ++ rounds ++ tail /\
      Forall (fun e => phase e = 1) hs /\
      Forall (fun e => phase e = 2) gets /\
      Forall (fun e => phase e = 3) rounds /\
      (tail = [EvNodeFinished KAnalyzer] /\ result r = Ret tt /\
       finished (world r) = true
       \/ tail = [] /\ result r <> Ret tt)).
  { intros an w0. cbn zeta.
    pose proof (wait_until_partners_ready_phase (Res:=Res) env fuel w0) as Hq.
    unfold bind.
    destruct (_wait_until_partners_ready env fuel w0) as [pevs w1 [[]|e|]];
      cbn [events world result] in *;
      try (exists pevs, [], [], []; rewrite ?app_nil_r;
           repeat (split; [done || constructor|]); by right).
    destruct (get_data_returns query w1) as [[[data Ed]|[e Ee]] Hg].
    2:{ rewrite Ee. cbn [events world result].
        exists pevs, (events (_get_data env query w1)), [], [].
        rewrite ?app_nil_r. repeat (split; [done || constructor|]).
        by right. }
    rewrite Ed. cbn [events world result print app].
    set (w2 := mkWorld _ _ _).
    pose proof (analyzer_loop_trace py_str env fuel an data simple None
                  false w2) as Htr.
    pose proof (an_trace_phase _ _ _ _ _ _ _ _ Htr) as Hph.
    pose proof (an_trace_ret _ _ _ _ _ _ _ _ Htr) as Hret.
    destruct (analyzer_loop py_str env fuel an data simple None false w2)
      as [levs w3 [[]|e|]]; cbn [events world result node_finished] in *.
    - exists pevs, (events (_get_data env query w1)), levs,
        [EvNodeFinished KAnalyzer].
      repeat (split; [done|]). left. auto.
    - exists pevs, (events (_get_data env query w1)), levs, [].
      rewrite ?app_nil_r. repeat (split; [done|]). by right.
    - exists pevs, (events (_get_data env query w1)), levs, [].
      rewrite ?app_nil_r. repeat (split; [done|]). by right. }
  cbn zeta. unfold start_analyzer.
  destruct (is_analyzer env);
    [|exists [], [], [], [], []; cbn;
      repeat (split; [done || constructor|]); by right].
  destruct analyzer as [o|init| |];
    try (exists [], [], [], [], []; cbn;
         repeat (split; [done || constructor|]); by right).
  - rewrite (bind_ret_run _ _ _ true) by reflexivity.
    rewrite (bind_ret_run _ _ _ o) by reflexivity.
    cbn [events world result isinstance_or_issubclass instance_of ret app].
    destruct (Hrun o w) as (hs & gets & rounds & tail & E & ?).
    exists [], hs, gets, rounds, tail. cbn zeta in E. rewrite E.
    split; [done|]. split; [constructor|]. done.
  - rewrite (bind_ret_run _ _ _ true) by reflexivity.
    rewrite (bind_ret_run _ _ _ init) by reflexivity.
    cbn [events world result isinstance_or_issubclass instance_of ret app].
    destruct (Hrun init w) as (hs & gets & rounds & tail & E & ?).
    exists [EvInstantiate KAnalyzer], hs, gets, rounds, tail.
    cbn zeta in E. rewrite E.
    split; [done|]. split; [by repeat constructor|]. done.
Qed.

(** X9. [start_analyzer] returns normally only with the global flag
    set, and then its last call is the finalisation hook
    [node_finished]; the hook is called at no other point of a run: a
    run that raises (as on a timed-out wait) or is still looping has
    not called it. *)
Theorem analyzer_finalisation_hook
    (analyzer : StrategyArg (AnalyzerObj Res JSON)) (query : Query)
    simple fuel w :
  let r := start_analyzer py_str env analyzer query simple fuel w in
  (result r = Ret tt ->
   finished (world r) = true /\
   exists evs', events r = evs' ++ [EvNodeFinished KAnalyzer]) /\
  (forall pre k post,
     events r = pre ++ EvNodeFinished k :: post ->
     k = KAnalyzer /\ post = [] /\ result r = Ret tt).
Proof.
  cbn zeta.
  destruct (start_analyzer_phases analyzer query simple fuel w)
    as (inst & hs & gets & rounds & tail & Hev & Hi & Hh & Hg & Hr & Ht).
  cbn zeta in *. split.
  - intros Hres. destruct Ht as [(-> & _ & Hf)|[_ Hn]]; [|done].
    split; [done|]. exists (inst ++ hs ++ gets ++ rounds).
    by rewrite Hev, <- !app_assoc.
  - intros pre k post H. rewrite Hev in H.
    replace (inst ++ hs ++ gets ++ rounds ++ tail)
      with ((inst ++ hs ++ gets ++ rounds) ++ tail ++ []) in H
      by (by rewrite app_nil_r, <- !app_assoc).
    apply (locate_in_middle (fun e => phase e <> 4)) in H
      as (pre0 & post0 & Hmid & _ & ->); [| |constructor|by cbn; lia].
    2:{ rewrite !Forall_app. repeat split;
          (eapply not_finalisation; [|eassumption]); lia. }
    destruct Ht as [(-> & Hres & _)|[-> _]].
    + symmetry in Hmid.
      apply app_cons_inv in Hmid as [(_ & Hx & Hp)|(pre1 & _ & Hmid)].
      * injection Hx as ->. by subst post0.
      * by apply app_cons_not_nil in Hmid.
    + symmetry in Hmid. by apply app_cons_not_nil in Hmid.
Qed.

Lemma tail_phase (k : StrategyKind) (tail : list (Event Res JSON)) :
  tail = [EvNodeFinished k] \/ tail = [] ->
  Forall (fun e => phase e = 4) tail.
Proof. intros [->| ->]; by repeat constructor. Qed.

(** X12. Both entrypoints work stage by stage: the strategy is
    instantiated first, then comes the readiness handshake, then (on an
    analyzer) the data fetch, then the rounds, and last the
    finalisation hook; no call of an earlier stage is made once a later
    stage has begun. *)
Theorem entrypoints_run_in_stages
    (aggregator : StrategyArg (AggregatorObj Res))
    (analyzer : StrategyArg (AnalyzerObj Res JSON)) (query : Query)
    simple fuel w :
  in_phase_order (events (start_aggregator py_str env aggregator simple
                            fuel w)) /\
  in_phase_order (events (start_analyzer py_str env analyzer query simple
                            fuel w)).
Proof.
  split.
  - destruct (start_aggregator_phases py_str env aggregator simple fuel w)
      as (inst & hs & rounds & tail & Hev & Hi & Hh & Hr & Ht).
    cbn zeta in *. rewrite Hev.
    apply (phase_order_blocks inst hs [] rounds tail); try done.
    apply (tail_phase KAggregator). destruct Ht as [[-> _]|[-> _]]; auto.
  - destruct (start_analyzer_phases analyzer query simple fuel w)
      as (inst & hs & gets & rounds & tail & Hev & Hi & Hh & Hg & Hr & Ht).
    cbn zeta in *. rewrite Hev.
    apply phase_order_blocks; try done.
    apply (tail_phase KAnalyzer). destruct Ht as [[-> _]|[-> _]]; auto.
Qed.

(** An iteration entered with the local flag set polls the global flag
    twice and does nothing else. *)
Lemma analyzer_loop_idle_step n (an : AnalyzerObj Res JSON)
    (data : FetchResult JSON) simple (agg : option string) w :
  finished w || ext_finished env (clock w) = false ->
  analyzer_loop py_str env (S n) an data simple agg true w
  = analyzer_loop py_str env n an data simple agg true
      (mkWorld (ext_finished env (S (clock w))) (S (S (clock w)))
               (stdout w)).
Proof.
  intros Hc. cbn. unfold bind; cbn. rewrite Hc; cbn.
  rewrite andb_false_r; cbn.
  by destruct (analyzer_loop py_str env n an data simple agg true _).
Qed.

(** X13. Once locally converged, the analyzer's loop only polls the
    global flag, twice per iteration and without any wait in between:
    it returns exactly when the flag is set at entry or at one of these
    polls, and is still looping otherwise; it never raises. *)
Theorem locally_converged_analyzer_polls_until_flag
    (an : AnalyzerObj Res JSON) (data : FetchResult JSON) simple fuel
    (agg : option string) w :
  let r := analyzer_loop py_str env fuel an data simple agg true w in
  (result r = Ret tt \/ result r = OutOfFuel) /\
  (result r = Ret tt <->
   finished w = true \/
   exists t, t <= 2 * fuel /\ ext_finished env (clock w + t) = true).
Proof.
  cbn zeta. revert w. induction fuel as [|n IH]; intros w.
  - cbn. unfold bind; cbn.
    destruct (finished w) eqn:Ef; cbn.
    { split; [by left|]. split; auto. }
    destruct (ext_finished env (clock w)) eqn:Ee; cbn.
    + split; [by left|]. split; [|done]. intros _. right. exists 0.
      by rewrite Nat.add_0_r.
    + split; [by right|]. split; [done|].
      intros [?|(t & Ht & Hx)]; [done|].
      assert (t = 0) as -> by lia. rewrite Nat.add_0_r in Hx. congruence.
  - destruct (finished w || ext_finished env (clock w)) eqn:Ec.
    + assert (E : result (analyzer_loop py_str env (S n) an data simple agg
                            true w) = Ret tt).
      { cbn. unfold bind; cbn. by rewrite Ec. }
      rewrite E. split; [by left|]. split; [|done]. intros _.
      apply orb_true_iff in Ec as [?|Ee]; [by left|right].
      exists 0. split; [lia|]. by rewrite Nat.add_0_r.
    + rewrite (analyzer_loop_idle_step n an data simple agg w Ec).
      apply orb_false_iff in Ec as [Ef Ee].
      destruct (IH (mkWorld (ext_finished env (S (clock w)))
                            (S (S (clock w))) (stdout w))) as [IH1 IH2].
      split; [exact IH1|]. rewrite IH2. cbn. split.
      * intros [Hx|(t & Ht & Hx)]; right.
        -- exists 1. split; [lia|].
           by replace (clock w + 1) with (S (clock w)) by lia.
        -- exists (S (S t)). split; [lia|].
           by replace (clock w + S (S t)) with (S (S (clock w + t))) by lia.
      * intros [Hx|(t & Ht & Hx)]; [congruence|].
        destruct t as [|[|t]].
        -- rewrite Nat.add_0_r in Hx. congruence.
        -- left. by replace (clock w + 1) with (S (clock w)) in Hx by lia.
        -- right. exists t. split; [lia|].
           by replace (clock w + S (S t)) with (S (S (clock w + t))) in Hx
             by lia.
Qed.

(** ** Further properties of the data fetch adapter *)

(** One turn of the [for] loop with the world it leaves: a failure is
    printed, a success is not. *)
Lemma fetch_queries_turn q (qs : list string) (acc : gmap string JSON) w :
  responds env (clock w) q ->
  let acc' := match fetched env (clock w) q with
              | Some j => <[q:=j]> acc
              | None => acc
              end in
  let w1 := match fetched env (clock w) q with
            | Some _ => tick w
            | None => mkWorld (finished w) (S (clock w))
                              (stdout w ++ [PFailedQuery q])
            end in
  world (fetch_queries env (q :: qs) acc w)
  = world (fetch_queries env qs acc' w1) /\
  result (fetch_queries env (q :: qs) acc w)
  = result (fetch_queries env qs acc' w1).
Proof.
  intros [r Hr]. unfold fetched, parsed_body. cbn.
  unfold bind, try_except, client_get, raise_for_status, json; cbn.
  rewrite Hr; cbn.
  destruct (is_success _) eqn:Es; cbn;
    [destruct (json_body _) eqn:Ej; cbn|].
  all: match goal with
       | |- context [fetch_queries ?e ?l ?a ?w1] =>
           by destruct (fetch_queries e l a w1) as [? ? [?| |]]
       end.
Qed.

Lemma fetch_queries_log (qs : list string) (acc : gmap string JSON) w :
  source_responds env (clock w) qs ->
  exists out : list (Printed Res JSON),
    stdout (world (fetch_queries env qs acc w)) = stdout w ++ out /\
    (forall p, p ∈ out <->
       exists i q, p = PFailedQuery q /\ qs !! i = Some q /\
                   fetched env (clock w + i) q = None) /\
    clock (world (fetch_queries env qs acc w)) = clock w + length qs /\
    finished (world (fetch_queries env qs acc w)) = finished w.
Proof.
  revert acc w. induction qs as [|q0 qs IH]; intros acc w Hsrc.
  - exists []. cbn. rewrite app_nil_r. repeat split; try done; try lia.
    + intros H. by apply elem_of_nil in H.
    + intros (i & q & _ & Hi & _). by rewrite lookup_nil in Hi.
  - apply source_responds_cons in Hsrc as [Hq0 Hsrc].
    destruct (fetch_queries_turn q0 qs acc w Hq0) as [Ew _].
    cbn zeta in Ew. rewrite Ew. clear Ew.
    destruct (fetched env (clock w) q0) as [j|] eqn:Ef.
    + destruct (IH (<[q0:=j]> acc) (tick w) Hsrc)
        as (out & Es & Hout & Hc & Hf).
      exists out. cbn in *. rewrite Es, Hc, Hf.
      repeat split; try done; try lia.
      * intros Hp. apply Hout in Hp as (i & q & -> & Hi & Hx).
        exists (S i), q. repeat split; try done.
        by replace (clock w + S i) with (S (clock w + i)) by lia.
      * intros (i & q & -> & Hi & Hx). apply Hout.
        destruct i as [|i]; cbn in Hi.
        -- injection Hi as ->. rewrite Nat.add_0_r in Hx. congruence.
        -- exists i, q. repeat split; try done.
           by replace (S (clock w + i)) with (clock w + S i) by lia.
    + destruct (IH acc (mkWorld (finished w) (S (clock w))
                                (stdout w ++ [PFailedQuery q0])) Hsrc)
        as (out & Es & Hout & Hc & Hf).
      exists (PFailedQuery q0 :: out). cbn in *.
      rewrite Es, Hc, Hf, <- app_assoc.
      repeat split; try done; try lia.
      * intros Hp. apply elem_of_cons in Hp as [->|Hp].
        -- exists 0, q0. by rewrite Nat.add_0_r.
        -- apply Hout in Hp as (i & q & -> & Hi & Hx).
           exists (S i), q. repeat split; try done.
           by replace (clock w + S i) with (S (clock w + i)) by lia.
      * intros (i & q & -> & Hi & Hx). apply elem_of_cons.
        destruct i as [|i]; cbn in Hi.
        -- injection Hi as ->. by left.
        -- right. apply Hout. exists i, q. repeat split; try done.
           by replace (S (clock w + i)) with (clock w + S i) by lia.
Qed.

(** X10. Given a list of queries whose GETs all deliver a response, the
    adapter prints a failure line for exactly the queries whose
    response was not a 2xx, parseable one, and prints nothing else; it
    consults the data source once per query and leaves the global flag
    alone. *)
Theorem failed_queries_are_logged (qs : list string) w :
  source_responds env (clock w) qs ->
  let r := _get_data (Res:=Res) env (QList qs) w in
  exists out : list (Printed Res JSON),
    stdout (world r) = stdout w ++ out /\
    (forall p, p ∈ out <->
       exists i q, p = PFailedQuery q /\ qs !! i = Some q /\
                   fetched env (clock w + i) q = None) /\
    clock (world r) = clock w + length qs /\
    finished (world r) = finished w.
Proof.
  intros Hsrc. cbn zeta.
  destruct (fetch_queries_log qs ∅ w Hsrc) as (out & Hs & Ho & Hc & Hf).
  exists out. cbn. unfold bind.
  by destruct (fetch_queries env qs ∅ w) as [? ? [?| |]].
Qed.

(** A query without a successful GET keeps the entry it had. *)
Lemma fetch_queries_untouched (qs : list string) (acc : gmap string JSON)
    w q :
  source_responds env (clock w) qs ->
  (forall i, qs !! i = Some q -> fetched env (clock w + i) q = None) ->
  exists m, result (fetch_queries (Res:=Res) env qs acc w) = Ret m /\
            m !! q = acc !! q.
Proof.
  revert acc w. induction qs as [|q0 qs IH]; intros acc w Hsrc Hno.
  - by exists acc.
  - apply source_responds_cons in Hsrc as [Hq0 Hsrc].
    destruct (fetch_queries_turn q0 qs acc w Hq0) as [_ Er].
    cbn zeta in Er. rewrite Er. clear Er.
    assert (Hrest : forall w1, clock w1 = S (clock w) ->
              forall i, qs !! i = Some q ->
                fetched env (clock w1 + i) q = None).
    { intros w1 Hc i Hi. rewrite Hc.
      replace (S (clock w) + i) with (clock w + S i) by lia.
      by apply Hno. }
    destruct (fetched env (clock w) q0) as [j|] eqn:Ef.
    + destruct (IH (<[q0:=j]> acc) (tick w)) as (m & Em & Hm);
        [done|by apply Hrest|].
      exists m. split; [done|]. rewrite Hm.
      apply lookup_insert_ne. intros ->.
      specialize (Hno 0 eq_refl). rewrite Nat.add_0_r in Hno. congruence.
    + apply IH; [done|by apply Hrest].
Qed.

Lemma fetch_queries_last_success (qs : list string)
    (acc : gmap string JSON) w i q j :
  source_responds env (clock w) qs ->
  qs !! i = Some q ->
  fetched env (clock w + i) q = Some j ->
  (forall i', i < i' -> qs !! i' = Some q ->
     fetched env (clock w + i') q = None) ->
  exists m, result (fetch_queries (Res:=Res) env qs acc w) = Ret m /\
            m !! q = Some j.
Proof.
  revert acc w i.
  induction qs as [|q0 qs IH]; intros acc w i Hsrc Hi Hj Hlater.
  - by rewrite lookup_nil in Hi.
  - apply source_responds_cons in Hsrc as [Hq0 Hsrc].
    destruct (fetch_queries_turn q0 qs acc w Hq0) as [_ Er].
    cbn zeta in Er. rewrite Er. clear Er.
    destruct i as [|i]; cbn in Hi.
    + injection Hi as ->. rewrite Nat.add_0_r in Hj. rewrite Hj.
      destruct (fetch_queries_untouched qs (<[q:=j]> acc) (tick w) q)
        as (m & Em & Hm); [done| |].
      { intros i Hi. cbn.
        replace (S (clock w + i)) with (clock w + S i) by lia.
        apply Hlater; [lia|done]. }
      exists m. split; [done|]. by rewrite Hm, lookup_insert_eq.
    + assert (Hshift : forall w1, clock w1 = S (clock w) ->
                fetched env (clock w1 + i) q = Some j /\
                forall i', i < i' -> qs !! i' = Some q ->
                  fetched env (clock w1 + i') q = None).
      { intros w1 Hc. rewrite Hc. split.
        - by replace (S (clock w) + i) with (clock w + S i) by lia.
        - intros i' Hlt Hq.
          replace (S (clock w) + i') with (clock w + S i') by lia.
          apply Hlater; [lia|done]. }
      destruct (fetched env (clock w) q0) as [j0|].
      * destruct (Hshift (tick w) eq_refl) as [H1 H2].
        by eapply (IH _ (tick w)).
      * destruct (Hshift (mkWorld (finished w) (S (clock w))
                            (stdout w ++ [PFailedQuery q0])) eq_refl)
          as [H1 H2].
        by eapply (IH _ (mkWorld (finished w) (S (clock w))
                           (stdout w ++ [PFailedQuery q0]))).
Qed.

(** X11. When a query occurs several times in a list whose GETs all
    deliver a response, the mapping keeps the body of its last
    successful GET: a later success overwrites an earlier one, a later
    failure does not remove it. *)
Theorem last_successful_fetch_is_kept (qs : list string) w i q j :
  source_responds env (clock w) qs ->
  qs !! i = Some q ->
  fetched env (clock w + i) q = Some j ->
  (forall i', i < i' -> qs !! i' = Some q ->
     fetched env (clock w + i') q = None) ->
  exists m, result (_get_data (Res:=Res) env (QList qs) w) = Ret (FMap m) /\
            m !! q = Some j.
Proof.
  intros Hsrc Hi Hj Hlater.
  destruct (fetch_queries_last_success qs ∅ w i q j Hsrc Hi Hj Hlater)
    as (m & Em & Hm).
  exists m. split; [|done]. cbn. unfold bind. rewrite Em. cbn.
  destruct (size m) eqn:Es; [|done].
  apply map_size_empty_iff in Es. subst m. by rewrite lookup_empty in Hm.
Qed.

End AnalyzerRuns.

(** * The further properties on the example deployments *)

Lemma invalid_strategy_rejected_before_any_effect_witness :
  (role (quiet_env "aggregator") = "aggregator" /\
   start_aggregator id (quiet_env "aggregator") AnotherClass true 5 w0
   = Run [] w0 (Raise (BrokenPipeError IS_INCORRECT_CLASS)) /\
   start_aggregator id (quiet_env "aggregator") NotAClass true 5 w0
   = Run [] w0 (Raise TypeError)) /\
  (role (quiet_env "default") = "default" /\
   start_analyzer id (quiet_env "default") AnotherClass (QStr "Patient")
                  true 5 w0
   = Run [] w0 (Raise (BrokenPipeError IS_INCORRECT_CLASS)) /\
   start_analyzer id (quiet_env "default") NotAClass (QStr "Patient")
                  true 5 w0
   = Run [] w0 (Raise TypeError)).
Proof.
  split; (split; [reflexivity|]).
  - exact (proj1 (invalid_strategy_rejected_before_any_effect id
                    (quiet_env "aggregator") (QStr "Patient") true 5 w0)
                 eq_refl).
  - exact (proj2 (invalid_strategy_rejected_before_any_effect id
                    (quiet_env "default") (QStr "Patient") true 5 w0)
                 eq_refl).
Defined.

Lemma aggregator_finalisation_hook_witness :
  (result (start_aggregator id (answering_env (inr "stored"))
             (AnInstance sum_strategy) true 3 w0) = Ret tt /\
   finished (world (start_aggregator id (answering_env (inr "stored"))
                      (AnInstance sum_strategy) true 3 w0)) = true /\
   exists evs',
     events (start_aggregator id (answering_env (inr "stored"))
               (AnInstance sum_strategy) true 3 w0)
     = evs' ++ [EvNodeFinished KAggregator]) /\
  (exists pre post,
     events (start_aggregator id (answering_env (inr "stored"))
               (AnInstance sum_strategy) true 3 w0)
     = pre ++ EvNodeFinished KAggregator :: post /\
     KAggregator = KAggregator /\ post = [] /\
     result (start_aggregator id (answering_env (inr "stored"))
               (AnInstance sum_strategy) true 3 w0) = Ret tt).
Proof.
  pose proof (aggregator_finalisation_hook id (answering_env (inr "stored"))
                (AnInstance sum_strategy) true 3 w0) as [H1 H2].
  cbn zeta in H1, H2. split.
  - split; [reflexivity|]. exact (H1 eq_refl).
  - set (d := [("n1", Some [result_message "n1" "5"]);
               ("n2", Some [result_message "n2" "7"])] : ResponseDict).
    set (pre := [EvSleep 1;
                 EvSendMessage ["n1"; "n2"] ready_check [] (Some 120)
                               (["n1"; "n2"], []);
                 EvAwaitResponses ["n1"; "n2"] intermediate_results None d;
                 EvAggregate ["5"; "7"] true ("5+7", true);
                 EvSubmitFinalResult (final_payload id "5+7")
                                     (inr "stored");
                 EvAnalysisFinished]
                : list (Event string string)).
    exists pre, []. split; [reflexivity|].
    apply (H2 pre KAggregator []). reflexivity.
Defined.

Lemma aggregated_result_is_passed_on_witness :
  exists pre post,
    events (aggregator_loop id (answering_env (inr "stored")) 3 sum_strategy
              true w0)
    = pre ++ EvAggregate ["5"; "7"] true ("5+7", true) :: post /\
    exists reply post',
      post = EvSubmitFinalResult (final_payload id "5+7") reply :: post'.
Proof.
  set (d := [("n1", Some [result_message "n1" "5"]);
             ("n2", Some [result_message "n2" "7"])] : ResponseDict).
  set (pre := [EvAwaitResponses ["n1"; "n2"] intermediate_results None d]
              : list (Event string string)).
  set (post := [EvSubmitFinalResult (final_payload id "5+7") (inr "stored");
                EvAnalysisFinished] : list (Event string string)).
  assert (H : events (aggregator_loop id (answering_env (inr "stored")) 3
                        sum_strategy true w0)
              = pre ++ EvAggregate ["5"; "7"] true ("5+7", true) :: post)
    by reflexivity.
  exists pre, post. split; [exact H|].
  destruct (aggregated_result_is_passed_on id (answering_env (inr "stored"))
              sum_strategy true 3 w0 _ _ _ _ _ _ H)
    as [[_ Hsub]|[Hc _]]; [exact Hsub|discriminate Hc].
Defined.

Lemma node_results_are_latest_results_witness :
  forallb truthy [Some [result_message "n1" "4"; result_message "n1" "5"];
                  Some [result_message "n2" "7"]] = true /\
  node_results_of [Some [result_message "n1" "4"; result_message "n1" "5"];
                   Some [result_message "n2" "7"]] = inr ["5"; "7"].
Proof.
  split; [reflexivity|].
  apply (proj1 (node_results_are_latest_results
                  [Some [result_message "n1" "4"; result_message "n1" "5"];
                   Some [result_message "n2" "7"]] eq_refl)).
  repeat constructor.
  - exists [result_message "n1" "4"; result_message "n1" "5"],
      (result_message "n1" "5"). repeat split.
  - exists [result_message "n2" "7"], (result_message "n2" "7").
    repeat split.
Defined.

Lemma analyzer_handshake_returns_at_first_acknowledgement_witness :
  result (_wait_until_partners_ready (Res:=string) (quiet_env "default")
            3 w0) = Ret tt /\
  length (events (_wait_until_partners_ready (Res:=string)
                    (quiet_env "default") 3 w0)) = 2.
Proof.
  apply (analyzer_handshake_returns_at_first_acknowledgement
           (quiet_env "default") 3 0 w0).
  - reflexivity.
  - lia.
  - intros i Hi. lia.
  - cbn. apply elem_of_cons. by left.
Defined.

Lemma analyze_receives_latest_feedback_witness :
  exists pre post,
    events (analyzer_loop id feedback_env 2 count_strategy (FBody "{}") true
              None false w0)
    = pre ++ EvAnalyze (FBody "{}") (Some "12") true ("5", false) :: post /\
    exists pre' dd r,
      pre = pre' ++ [EvAwaitResponses ["agg"] aggregated_results (Some 300)
                       dd] /\
      aggregated_result_of dd "agg" = inr r /\
      Some "12" = Some r.
Proof.
  set (d := [("agg", Some [mkMessage "agg" aggregated_results
                             [("result", "12")]])] : ResponseDict).
  set (sent := EvSendMessage ["agg"] intermediate_results [("result", "5")]
                 None (["agg"], []) : Event string string).
  set (waited := EvAwaitResponses ["agg"] aggregated_results (Some 300) d
                 : Event string string).
  set (pre := [EvAnalyze (FBody "{}") None true ("5", false); sent; waited]
              : list (Event string string)).
  assert (H : events (analyzer_loop id feedback_env 2 count_strategy
                        (FBody "{}") true None false w0)
              = pre ++ EvAnalyze (FBody "{}") (Some "12") true ("5", false)
                :: [sent; waited]) by reflexivity.
  exists pre, [sent; waited]. split; [exact H|].
  destruct (analyze_receives_latest_feedback id feedback_env count_strategy
              (FBody "{}") true 2 None false w0 _ _ _ _ _ _ H)
    as (_ & _ & [[Hpre _]|Hprev]); [discriminate Hpre|exact Hprev].
Defined.

Lemma analysis_result_is_sent_to_aggregator_witness :
  exists pre post,
    events (analyzer_loop id feedback_env 2 count_strategy (FBody "{}") true
              None false w0)
    = pre ++ EvAnalyze (FBody "{}") None true ("5", false) :: post /\
    exists reply post',
      post = EvSendMessage ["agg"] intermediate_results [("result", "5")]
               None reply :: post'.
Proof.
  eexists [], _. split; [reflexivity|].
  eapply (analysis_result_is_sent_to_aggregator id feedback_env
            count_strategy (FBody "{}") true 2 None false w0 []).
  reflexivity.
Defined.

Lemma analyzer_finalisation_hook_witness :
  (result (start_analyzer id finishing_env (AnInstance count_strategy)
             (QStr "Patient") true 3 w0) = Ret tt /\
   finished (world (start_analyzer id finishing_env
                      (AnInstance count_strategy) (QStr "Patient") true 3
                      w0)) = true /\
   exists evs',
     events (start_analyzer id finishing_env (AnInstance count_strategy)
               (QStr "Patient") true 3 w0)
     = evs' ++ [EvNodeFinished KAnalyzer]) /\
  (exists pre post,
     events (start_analyzer id finishing_env (AnInstance count_strategy)
               (QStr "Patient") true 3 w0)
     = pre ++ EvNodeFinished KAnalyzer :: post /\
     KAnalyzer = KAnalyzer /\ post = [] /\
     result (start_analyzer id finishing_env (AnInstance count_strategy)
               (QStr "Patient") true 3 w0) = Ret tt).
Proof.
  pose proof (analyzer_finalisation_hook id finishing_env
                (AnInstance count_strategy) (QStr "Patient") true 3 w0)
    as [H1 H2].
  cbn zeta in H1, H2. split.
  - split; [reflexivity|]. exact (H1 eq_refl).
  - set (pre := [EvSleep 1;
                 EvSendMessage ["agg"] ready_check [] (Some 120)
                               (["agg"], []);
                 EvHttpGet "/p1/fhir/Patient" [("Connection", "close")]
                           (inr (mkResponse 200 (Some "{}")));
                 EvAnalyze (FBody "{}") None true ("5", false);
                 EvSendMessage ["agg"] intermediate_results
                               [("result", "5")] None (["agg"], [])]
                : list (Event string string)).
    exists pre, []. split; [reflexivity|].
    apply (H2 pre KAnalyzer []). reflexivity.
Defined.

Lemma flaky_source_responds (t : nat) (qs : list string) :
  source_responds flaky_source_env t qs.
Proof.
  intros i q _. unfold responds. cbn.
  destruct (String.eqb _ _); by eexists.
Defined.

Lemma failed_queries_are_logged_witness :
  exists out : list (Printed string string),
    stdout (world (_get_data (Res:=string) flaky_source_env
                     (QList ["Patient"; "Observation"; "Condition"]) w0))
    = stdout w0 ++ out /\
    (forall p, p ∈ out <->
       exists i q, p = PFailedQuery q /\
                   ["Patient"; "Observation"; "Condition"] !! i = Some q /\
                   fetched flaky_source_env (clock w0 + i) q = None) /\
    clock (world (_get_data (Res:=string) flaky_source_env
                    (QList ["Patient"; "Observation"; "Condition"]) w0))
    = clock w0 + 3 /\
    finished (world (_get_data (Res:=string) flaky_source_env
                       (QList ["Patient"; "Observation"; "Condition"]) w0))
    = finished w0.
Proof.
  exact (failed_queries_are_logged (Res:=string) flaky_source_env
           ["Patient"; "Observation"; "Condition"] w0
           (flaky_source_responds _ _)).
Defined.

Lemma last_successful_fetch_is_kept_witness :
  exists m : gmap string string,
    result (_get_data (Res:=string) flaky_source_env
              (QList ["Patient"; "Observation"; "Patient"]) w0)
    = Ret (FMap m) /\
    m !! "Patient" = Some "/p1/fhir/Patient".
Proof.
  apply (last_successful_fetch_is_kept (Res:=string) flaky_source_env
           ["Patient"; "Observation"; "Patient"] w0 2 "Patient").
  - apply flaky_source_responds.
  - reflexivity.
  - reflexivity.
  - intros i' Hlt Hq. destruct i' as [|[|[|i']]]; try lia. discriminate Hq.
Defined.
